(** * GSTP: Gordian Sealed Transaction Protocol, a shallow embedding

    The sealed-message pipeline of gstp-rust ([continuation.rs],
    [sealed_request.rs], [sealed_response.rs], [sealed_event.rs]) over a
    symbolic model of the Envelope substrate it uses (bc-envelope): wrapping,
    assertions, encryption to recipients and signatures.  Cryptography is
    modelled symbolically: an encrypted subject keeps its plaintext together
    with the list of recipient key identifiers able to open it, and a
    signature records the signing key and the envelope it covers.  A key pair
    is named by a [nat]: the public encryption / verification key and the
    private key of the pair carry the same number. *)

From Stdlib Require Import List ZArith String Bool Lia.
From Stdlib Require PrimFloat SpecFloat FloatOps Uint63.
Import ListNotations.
Open Scope string_scope.

(** ** Identifiers *)

(** [ARID]: a 32-byte identifier, compared by value. *)
Definition ARID := Z.
(** [Date] (dcbor): a UTC instant with nanosecond precision, as the number
    of nanoseconds since the Unix epoch: whole seconds [Z.div d 10^9] and
    sub-second nanoseconds [Z.modulo d 10^9], ordered as integers. *)
Definition Date := Z.
Definition nanos_per_second : Z := 1000000000.
(** A key pair identifier. *)
Definition key := nat.

(** ** The dcbor date codec

    A [Date] is CBOR-encoded (tag 1) as the f64 number of seconds
    [Date::timestamp] and decoded by [Date::from_timestamp]; both go through
    IEEE-754 binary64 arithmetic, modelled with Rocq's primitive floats. *)

(** [i64 as f64] and [u32 as f64] (round to nearest), for [|z| < 2^63]. *)
Definition f64_of_Z (z : Z) : PrimFloat.float :=
  if Z.leb 0 z then PrimFloat.of_uint63 (Uint63.of_Z z)
  else PrimFloat.opp (PrimFloat.of_uint63 (Uint63.of_Z (- z)%Z)).

Definition f64_1e9 : PrimFloat.float := f64_of_Z nanos_per_second.

(** [Date::timestamp]: [secs as f64 + nanos as f64 / 1e9]. *)
Definition timestamp (d : Date) : PrimFloat.float :=
  PrimFloat.add (f64_of_Z (Z.div d nanos_per_second))
    (PrimFloat.div (f64_of_Z (Z.modulo d nanos_per_second)) f64_1e9).

(** The integer part (rounded toward zero) of a finite float. *)
Definition trunc_Z (f : PrimFloat.float) : Z :=
  match FloatOps.Prim2SF f with
  | SpecFloat.S754_finite s m e =>
      let a := if Z.leb 0 e then Z.shiftl (Zpos m) e
               else Z.shiftr (Zpos m) (- e) in
      if s then (- a)%Z else a
  | _ => 0
  end.

(** [f64::trunc]: a float of magnitude at least [2^53] is already integral;
    infinities and NaN are kept. *)
Definition f64_trunc (f : PrimFloat.float) : PrimFloat.float :=
  match FloatOps.Prim2SF f with
  | SpecFloat.S754_finite _ _ _ =>
      if Z.ltb (Z.abs (trunc_Z f)) (2 ^ 53)%Z then f64_of_Z (trunc_Z f) else f
  | _ => f
  end.

(** [f64::fract]: [f - f.trunc()]. *)
Definition f64_fract (f : PrimFloat.float) : PrimFloat.float :=
  PrimFloat.sub f (f64_trunc f).

(** [f as i64] and [f as u32]: truncation, saturating at [lo] and [hi], NaN
    to 0. *)
Definition saturating_cast (lo hi : Z) (f : PrimFloat.float) : Z :=
  match FloatOps.Prim2SF f with
  | SpecFloat.S754_nan => 0
  | SpecFloat.S754_infinity s => if s then lo else hi
  | _ => Z.max lo (Z.min hi (trunc_Z f))
  end.

(** [Date::from_timestamp]:
    [DateTime::from_timestamp(x.trunc() as i64, (x.fract() * 1e9) as u32)].
    The [unwrap] of chrono's result is not modelled: chrono refuses seconds
    outside its calendar range and a nanosecond count of [10^9] or more away
    from a leap second. *)
Definition from_timestamp (x : PrimFloat.float) : Date :=
  let secs := saturating_cast (- 2 ^ 63)%Z (2 ^ 63 - 1)%Z (f64_trunc x) in
  let nsecs := saturating_cast 0 (2 ^ 32 - 1)%Z
                 (PrimFloat.mul (f64_fract x) f64_1e9) in
  (secs * nanos_per_second + nsecs)%Z.

(** The value of a CBOR float, as stored in an envelope leaf. *)
Definition cbor_float := SpecFloat.spec_float.

Definition date_to_cbor (d : Date) : cbor_float :=
  FloatOps.Prim2SF (timestamp d).

Definition date_from_cbor (f : cbor_float) : Date :=
  from_timestamp (FloatOps.SF2Prim f).

(** A date as it comes back from its CBOR encoding. *)
Definition date_roundtrip (d : Date) : Date :=
  date_from_cbor (date_to_cbor d).

(** [XIDDocument], as far as the pipeline queries it. *)
Record XIDDocument := mkXID {
  xid : Z;
  encryption_key : option key;
  verification_key : option key
}.

(** ** Envelope substrate *)

(** Known values used as predicates and as special envelopes. *)
Inductive known_value :=
| SENDER | SENDER_CONTINUATION | RECIPIENT_CONTINUATION
| ID | VALID_UNTIL | SIGNED | BODY | NOTE | DATE | RESULT | ERROR | CONTENT
| OK_VALUE | UNKNOWN_VALUE.

Definition known_value_eqb (a b : known_value) : bool :=
  match a, b with
  | SENDER, SENDER | SENDER_CONTINUATION, SENDER_CONTINUATION
  | RECIPIENT_CONTINUATION, RECIPIENT_CONTINUATION
  | ID, ID | VALID_UNTIL, VALID_UNTIL | SIGNED, SIGNED | BODY, BODY
  | NOTE, NOTE | DATE, DATE | RESULT, RESULT | ERROR, ERROR
  | CONTENT, CONTENT | OK_VALUE, OK_VALUE | UNKNOWN_VALUE, UNKNOWN_VALUE => true
  | _, _ => false
  end.

(** CBOR leaves. *)
Inductive leaf :=
| LNull
| LText (s : string)
| LArid (a : ARID)
| LDate (f : cbor_float)
| LXid (d : XIDDocument)
| LRequest (id : ARID)
| LResponse (id : option ARID)
| LEvent (id : ARID).

Definition leaf_eq_dec (a b : leaf) : {a = b} + {a <> b}.
Proof.
  decide equality;
    repeat first [ apply string_dec | apply Z.eq_dec | apply Nat.eq_dec
                 | apply Pos.eq_dec | apply bool_dec | decide equality ].
Defined.

#[local] Set Warnings "-register-all".

Inductive envelope :=
| ELeaf (v : leaf)
| EKnownValue (kv : known_value)
| EWrapped (e : envelope)
| ENode (subject : envelope) (assertions : list (known_value * envelope))
  (** an encrypted subject with one [hasRecipient] per recipient key *)
| EEncrypted (recipients : list key) (plaintext : envelope)
  (** a signature by [signer] over the digest of [signed] *)
| ESignature (signer : key) (signed : envelope).

(** Structural comparison of envelopes (bc-envelope compares digests). *)
Fixpoint envelope_eqb (a b : envelope) : bool :=
  match a, b with
  | ELeaf x, ELeaf y => if leaf_eq_dec x y then true else false
  | EKnownValue x, EKnownValue y => known_value_eqb x y
  | EWrapped x, EWrapped y => envelope_eqb x y
  | ENode s xs, ENode t ys =>
      envelope_eqb s t &&
      (fix go (xs ys : list (known_value * envelope)) : bool :=
         match xs, ys with
         | [], [] => true
         | (p, o) :: xs', (q, o') :: ys' =>
             known_value_eqb p q && envelope_eqb o o' && go xs' ys'
         | _, _ => false
         end) xs ys
  | EEncrypted rs x, EEncrypted rs' y =>
      (fix go (rs rs' : list key) : bool :=
         match rs, rs' with
         | [], [] => true
         | r :: rs, r' :: rs' => Nat.eqb r r' && go rs rs'
         | _, _ => false
         end) rs rs' && envelope_eqb x y
  | ESignature k x, ESignature k' y => Nat.eqb k k' && envelope_eqb x y
  | _, _ => false
  end.

(** Errors of the envelope library ([bc_envelope::Error]). *)
Inductive envelope_error :=
| NotWrapped | NonexistentPredicate | AmbiguousPredicate | InvalidFormat
| NotEncrypted | UnknownRecipient | AlreadyEncrypted | UnverifiedSignature
| InvalidRequest | InvalidResponse.

(** [gstp::Error], together with the [anyhow] errors of the modules that
    still report failures as formatted messages. *)
Inductive Error :=
| SenderMissingEncryptionKey
| RecipientMissingEncryptionKey
| SenderMissingVerificationKey
| ContinuationExpired
| ContinuationIdInvalid
| PeerContinuationNotEncrypted
| MissingPeerContinuation
| EnvelopeError (e : envelope_error)
| XIDError
| Anyhow (msg : string).

(** [Result<T>] with its [?] operator. *)
Inductive Result (A : Type) :=
| Ok (a : A)
| Err (e : Error).
Arguments Ok {A} a.
Arguments Err {A} e.

Definition bind {A B} (m : Result A) (f : A -> Result B) : Result B :=
  match m with
  | Ok a => f a
  | Err e => Err e
  end.

Notation "'let?' x ':=' m 'in' f" := (bind m (fun x => f))
  (at level 200, x name, m at level 100, f at level 200).

(** [Option::ok_or]. *)
Definition ok_or {A} (o : option A) (e : Error) : Result A :=
  match o with
  | Some a => Ok a
  | None => Err e
  end.

Module Envelope.

Definition null : envelope := ELeaf LNull.
Definition ok : envelope := EKnownValue OK_VALUE.
Definition unknown : envelope := EKnownValue UNKNOWN_VALUE.

Definition is_null (e : envelope) : bool :=
  match e with ELeaf LNull => true | _ => false end.

Definition subject (e : envelope) : envelope :=
  match e with ENode s _ => s | _ => e end.

Definition assertions (e : envelope) : list (known_value * envelope) :=
  match e with ENode _ a => a | _ => [] end.

Definition is_encrypted (e : envelope) : bool :=
  match e with EEncrypted _ _ => true | _ => false end.

Definition wrap (e : envelope) : envelope := EWrapped e.

Definition try_unwrap (e : envelope) : Result envelope :=
  match subject e with
  | EWrapped inner => Ok inner
  | _ => Err (EnvelopeError NotWrapped)
  end.

(** Assertions of a node are kept in insertion order; no pipeline below
    adds the same assertion twice, so the library's deduplication of equal
    assertions is not modelled. *)
Definition add_assertion (p : known_value) (o : envelope) (e : envelope)
  : envelope :=
  match e with
  | ENode s a => ENode s (a ++ [(p, o)])
  | _ => ENode e [(p, o)]
  end.

Definition add_optional_assertion (p : known_value) (o : option envelope)
    (e : envelope) : envelope :=
  match o with
  | Some o => add_assertion p o e
  | None => e
  end.

Definition objects_for_predicate (p : known_value) (e : envelope)
  : list envelope :=
  map snd (filter (fun a => known_value_eqb (fst a) p) (assertions e)).

Definition optional_object_for_predicate (p : known_value) (e : envelope)
  : Result (option envelope) :=
  match objects_for_predicate p e with
  | [] => Ok None
  | [o] => Ok (Some o)
  | _ => Err (EnvelopeError AmbiguousPredicate)
  end.

Definition object_for_predicate (p : known_value) (e : envelope)
  : Result envelope :=
  match objects_for_predicate p e with
  | [] => Err (EnvelopeError NonexistentPredicate)
  | [o] => Ok o
  | _ => Err (EnvelopeError AmbiguousPredicate)
  end.

Definition set_subject (e s : envelope) : envelope :=
  match e with
  | ENode _ a => ENode s a
  | _ => s
  end.

Definition encrypt_subject_to_recipients (rs : list key) (e : envelope)
  : Result envelope :=
  if is_encrypted (subject e) then Err (EnvelopeError AlreadyEncrypted)
  else Ok (set_subject e (EEncrypted rs (subject e))).

(** [encrypt_to_recipient]: wrap, then encrypt the subject. *)
Definition encrypt_to_recipient (e : envelope) (k : key) : envelope :=
  set_subject (wrap e) (EEncrypted [k] (wrap e)).

(** [decrypt_to_recipient]: look for a [hasRecipient] sealed message the
    private key opens, open the subject with the content key, then unwrap.
    With no such message (in particular on a subject that is not encrypted,
    which carries none) it fails with the unknown-recipient error. *)
Definition decrypt_to_recipient (e : envelope) (sk : key) : Result envelope :=
  match subject e with
  | EEncrypted rs plain =>
      if existsb (Nat.eqb sk) rs then try_unwrap (set_subject e plain)
      else Err (EnvelopeError UnknownRecipient)
  | _ => Err (EnvelopeError UnknownRecipient)
  end.

(** [sign]: wrap, then add a signature over the wrapped subject. *)
Definition sign (e : envelope) (signer : key) : envelope :=
  add_assertion SIGNED (ESignature signer (wrap e)) (wrap e).

Definition is_signature_from (vk : key) (e : envelope)
    (a : known_value * envelope) : bool :=
  match a with
  | (SIGNED, ESignature k d) => Nat.eqb k vk && envelope_eqb d (subject e)
  | _ => false
  end.

(** [verify]: check a signature by [vk] over the subject, then unwrap. *)
Definition verify (e : envelope) (vk : key) : Result envelope :=
  if existsb (is_signature_from vk e) (assertions e) then try_unwrap e
  else Err (EnvelopeError UnverifiedSignature).

(** Typed extraction of optional objects. *)
Definition extract_optional_arid (p : known_value) (e : envelope)
  : Result (option ARID) :=
  let? o := optional_object_for_predicate p e in
  match o with
  | None => Ok None
  | Some (ELeaf (LArid a)) => Ok (Some a)
  | Some _ => Err (EnvelopeError InvalidFormat)
  end.

Definition extract_optional_date (p : known_value) (e : envelope)
  : Result (option Date) :=
  let? o := optional_object_for_predicate p e in
  match o with
  | None => Ok None
  | Some (ELeaf (LDate f)) => Ok (Some (date_from_cbor f))
  | Some _ => Err (EnvelopeError InvalidFormat)
  end.

End Envelope.

Definition arid_envelope (a : ARID) : envelope := ELeaf (LArid a).
Definition date_envelope (d : Date) : envelope := ELeaf (LDate (date_to_cbor d)).

(** [XIDDocument::to_envelope] (public keys only) and its [TryFrom]. *)
Definition xid_to_envelope (d : XIDDocument) : envelope := ELeaf (LXid d).
Definition xid_try_from (e : envelope) : Result XIDDocument :=
  match e with
  | ELeaf (LXid d) => Ok d
  | _ => Err XIDError
  end.

(** ** Continuation ([continuation.rs]) *)

Module Continuation.

Record t := mk {
  state : envelope;
  valid_id : option ARID;
  valid_until : option Date
}.

Definition new (st : envelope) : t := mk st None None.

Definition with_valid_id (c : t) (id : ARID) : t :=
  mk (state c) (Some id) (valid_until c).

Definition with_optional_valid_id (c : t) (id : option ARID) : t :=
  match id with Some id => with_valid_id c id | None => c end.

Definition with_valid_until (c : t) (d : Date) : t :=
  mk (state c) (valid_id c) (Some d).

Definition with_optional_valid_until (c : t) (d : option Date) : t :=
  match d with Some d => with_valid_until c d | None => c end.

Definition is_valid_date (c : t) (now : option Date) : bool :=
  match now with
  | Some now =>
      match valid_until c with
      | Some vu => Z.ltb now vu
      | None => true
      end
  | None => true
  end.

Definition is_valid_id (c : t) (id : option ARID) : bool :=
  match id with
  | Some expected_id =>
      match valid_id c with
      | Some vid => Z.eqb vid expected_id
      | None => true
      end
  | None => true
  end.

Definition is_valid (c : t) (now : option Date) (id : option ARID) : bool :=
  is_valid_date c now && is_valid_id c id.

(** [c] as read back from its envelope: the state and the id are kept, the
    date goes through its CBOR encoding. *)
Definition decoded (c : t) : t :=
  mk (state c) (valid_id c) (option_map date_roundtrip (valid_until c)).

Definition to_envelope (c : t) (sender : option key) : envelope :=
  let result :=
    Envelope.add_optional_assertion VALID_UNTIL
      (option_map date_envelope (valid_until c))
      (Envelope.add_optional_assertion ID
         (option_map arid_envelope (valid_id c))
         (Envelope.wrap (state c))) in
  match sender with
  | Some k => Envelope.encrypt_to_recipient result k
  | None => result
  end.

Definition try_from_envelope (encrypted_envelope : envelope)
    (id : option ARID) (now : option Date) (recipient : option key)
  : Result t :=
  let? env :=
    match recipient with
    | Some r => Envelope.decrypt_to_recipient encrypted_envelope r
    | None => Ok encrypted_envelope
    end in
  let? st := Envelope.try_unwrap env in
  let? vid := Envelope.extract_optional_arid ID env in
  let? vu := Envelope.extract_optional_date VALID_UNTIL env in
  let continuation := mk st vid vu in
  if negb (is_valid_date continuation now) then
    Err (Anyhow "Continuation expired")
  else if negb (is_valid_id continuation id) then
    Err (Anyhow "Continuation ID invalid")
  else Ok continuation.

End Continuation.

(** ** Payload shells (bc-envelope [Request], [Response], [Event]) *)

Record Request := mkRequest {
  request_id : ARID;
  request_body : envelope;   (* the [Expression] envelope *)
  request_note : string;
  request_date : option Date
}.

Definition request_into_envelope (r : Request) : envelope :=
  Envelope.add_optional_assertion DATE
    (option_map date_envelope (request_date r))
    (Envelope.add_optional_assertion NOTE
       (if String.eqb (request_note r) "" then None
        else Some (ELeaf (LText (request_note r))))
       (Envelope.add_assertion BODY (request_body r)
          (ELeaf (LRequest (request_id r))))).

Definition request_try_from (e : envelope) : Result Request :=
  match Envelope.subject e with
  | ELeaf (LRequest id) =>
      let? body := Envelope.object_for_predicate BODY e in
      let? note := Envelope.optional_object_for_predicate NOTE e in
      let? note :=
        match note with
        | None => Ok ""
        | Some (ELeaf (LText s)) => Ok s
        | Some _ => Err (EnvelopeError InvalidFormat)
        end in
      let? date := Envelope.extract_optional_date DATE e in
      Ok (mkRequest id body note date)
  | _ => Err (EnvelopeError InvalidRequest)
  end.

(** A request as read back from its envelope: the date goes through its
    CBOR encoding. *)
Definition request_decoded (r : Request) : Request :=
  mkRequest (request_id r) (request_body r) (request_note r)
    (option_map date_roundtrip (request_date r)).

(** [Response(Result<(ARID, Envelope), (Option<ARID>, Envelope)>)]. *)
Inductive Response :=
| RSuccess (id : ARID) (result : envelope)
| RFailure (id : option ARID) (error : envelope).

Definition response_new_success (id : ARID) : Response := RSuccess id Envelope.ok.
Definition response_new_failure (id : ARID) : Response :=
  RFailure (Some id) Envelope.unknown.
Definition response_new_early_failure : Response := RFailure None Envelope.unknown.

Definition response_is_ok (r : Response) : bool :=
  match r with RSuccess _ _ => true | RFailure _ _ => false end.

(** The response builders trap ([None]) when applied to the wrong variant. *)
Definition response_with_result (r : Response) (e : envelope) : option Response :=
  match r with
  | RSuccess id _ => Some (RSuccess id e)
  | RFailure _ _ => None
  end.

Definition response_with_optional_result (r : Response) (e : option envelope)
  : option Response :=
  match e with
  | Some e => response_with_result r e
  | None => response_with_result r Envelope.null
  end.

Definition response_with_error (r : Response) (e : envelope) : option Response :=
  match r with
  | RSuccess _ _ => None
  | RFailure id _ => Some (RFailure id e)
  end.

Definition response_with_optional_error (r : Response) (e : option envelope)
  : option Response :=
  match e with
  | Some e => response_with_error r e
  | None => response_with_error r Envelope.unknown
  end.

Definition response_into_envelope (r : Response) : envelope :=
  match r with
  | RSuccess id res => Envelope.add_assertion RESULT res (ELeaf (LResponse (Some id)))
  | RFailure id err => Envelope.add_assertion ERROR err (ELeaf (LResponse id))
  end.

Definition response_try_from (e : envelope) : Result Response :=
  match Envelope.subject e with
  | ELeaf (LResponse oid) =>
      let? res := Envelope.optional_object_for_predicate RESULT e in
      match res, oid with
      | Some res, Some id => Ok (RSuccess id res)
      | Some _, None => Err (EnvelopeError InvalidResponse)
      | None, _ =>
          let? err := Envelope.object_for_predicate ERROR e in
          Ok (RFailure oid err)
      end
  | _ => Err (EnvelopeError InvalidResponse)
  end.

(** [Event<T>] with its content already encoded as an envelope. *)
Record Event := mkEvent {
  event_id : ARID;
  event_content : envelope;
  event_note : string;
  event_date : option Date
}.

Definition event_into_envelope (ev : Event) : envelope :=
  Envelope.add_optional_assertion DATE
    (option_map date_envelope (event_date ev))
    (Envelope.add_optional_assertion NOTE
       (if String.eqb (event_note ev) "" then None
        else Some (ELeaf (LText (event_note ev))))
       (Envelope.add_assertion CONTENT (event_content ev)
          (ELeaf (LEvent (event_id ev))))).



(** [Event<T>]'s [TryFrom<Envelope>], with the content kept as an envelope. *)
Definition event_try_from (e : envelope) : Result Event :=
  match Envelope.subject e with
  | ELeaf (LEvent id) =>
      let? content := Envelope.object_for_predicate CONTENT e in
      let? note := Envelope.optional_object_for_predicate NOTE e in
      let? note :=
        match note with
        | None => Ok ""
        | Some (ELeaf (LText s)) => Ok s
        | Some _ => Err (EnvelopeError InvalidFormat)
        end in
      let? date := Envelope.extract_optional_date DATE e in
      Ok (mkEvent id content note date)
  | _ => Err (EnvelopeError InvalidFormat)
  end.


(** [if let Some(k) = signer { result = result.sign(k) }]. *)
Definition sign_opt (result : envelope) (signer : option key) : envelope :=
  match signer with
  | Some k => Envelope.sign result k
  | None => result
  end.

(** ** SealedRequest ([sealed_request.rs]) *)

Module SealedRequest.

Record t := mk {
  request : Request;
  sender : XIDDocument;
  state : option envelope;
  peer_continuation : option envelope
}.

Definition new (body : envelope) (id : ARID) (sender : XIDDocument) : t :=
  mk (mkRequest id body "" None) sender None None.

Definition with_state (r : t) (st : envelope) : t :=
  mk (request r) (sender r) (Some st) (peer_continuation r).

Definition with_optional_state (r : t) (st : option envelope) : t :=
  mk (request r) (sender r) st (peer_continuation r).

Definition with_peer_continuation (r : t) (pc : envelope) : t :=
  mk (request r) (sender r) (state r) (Some pc).

Definition with_optional_peer_continuation (r : t) (pc : option envelope) : t :=
  mk (request r) (sender r) (state r) pc.

Definition id (r : t) : ARID := request_id (request r).

(** [to_envelope], lines 275-309: the continuation and the assembled
    payload envelope, before signing and outer encryption. *)
Definition assemble (r : t) (valid_until : option Date) : Result envelope :=
  let st := match state r with Some s => s | None => Envelope.null end in
  let continuation :=
    Continuation.with_optional_valid_until
      (Continuation.with_valid_id (Continuation.new st) (id r)) valid_until in
  let? sender_encryption_key :=
    ok_or (encryption_key (sender r)) SenderMissingEncryptionKey in
  let sender_continuation :=
    Continuation.to_envelope continuation (Some sender_encryption_key) in
  Ok (Envelope.add_optional_assertion RECIPIENT_CONTINUATION
        (peer_continuation r)
        (Envelope.add_assertion SENDER_CONTINUATION sender_continuation
           (Envelope.add_assertion SENDER (xid_to_envelope (sender r))
              (request_into_envelope (request r))))).

(** [to_envelope], lines 269-324. *)
Definition to_envelope (r : t) (valid_until : option Date)
    (signer : option key) (recipient : option XIDDocument) : Result envelope :=
  let? result := assemble r valid_until in
  let result := sign_opt result signer in
  match recipient with
  | Some recipient =>
      let? recipient_encryption_key :=
        ok_or (encryption_key recipient) RecipientMissingEncryptionKey in
      Ok (Envelope.encrypt_to_recipient result recipient_encryption_key)
  | None => Ok result
  end.

(** [try_from_envelope], lines 326-370. *)
Definition try_from_envelope (encrypted_envelope : envelope)
    (id : option ARID) (now : option Date) (recipient : key) : Result t :=
  let? signed_envelope :=
    Envelope.decrypt_to_recipient encrypted_envelope recipient in
  let? unwrapped := Envelope.try_unwrap signed_envelope in
  let? sender_envelope := Envelope.object_for_predicate SENDER unwrapped in
  let? sender := xid_try_from sender_envelope in
  let? sender_verification_key :=
    ok_or (verification_key sender) SenderMissingVerificationKey in
  let? request_envelope :=
    Envelope.verify signed_envelope sender_verification_key in
  let? peer_continuation :=
    Envelope.optional_object_for_predicate SENDER_CONTINUATION
      request_envelope in
  let? _ :=
    match peer_continuation with
    | Some pc =>
        if negb (Envelope.is_encrypted (Envelope.subject pc))
        then Err PeerContinuationNotEncrypted else Ok tt
    | None => Err MissingPeerContinuation
    end in
  let? encrypted_continuation :=
    Envelope.optional_object_for_predicate RECIPIENT_CONTINUATION
      request_envelope in
  let? state :=
    match encrypted_continuation with
    | Some ec =>
        let? continuation :=
          Continuation.try_from_envelope ec id now (Some recipient) in
        Ok (Some (Continuation.state continuation))
    | None => Ok None
    end in
  let? request := request_try_from request_envelope in
  Ok (mk request sender state peer_continuation).

End SealedRequest.

(** ** SealedResponse ([sealed_response.rs]) *)

Module SealedResponse.

Record t := mk {
  response : Response;
  sender : XIDDocument;
  state : option envelope;
  peer_continuation : option envelope
}.

Definition new_success (id : ARID) (sender : XIDDocument) : t :=
  mk (response_new_success id) sender None None.

Definition new_failure (id : ARID) (sender : XIDDocument) : t :=
  mk (response_new_failure id) sender None None.

Definition new_early_failure (sender : XIDDocument) : t :=
  mk response_new_early_failure sender None None.

Definition is_ok (r : t) : bool := response_is_ok (response r).

(** The builders return [None] where the Rust code panics. *)
Definition with_state (r : t) (st : envelope) : option t :=
  if is_ok r then Some (mk (response r) (sender r) (Some st) (peer_continuation r))
  else None.

Definition with_optional_state (r : t) (st : option envelope) : option t :=
  match st with
  | Some st => with_state r st
  | None => Some (mk (response r) (sender r) None (peer_continuation r))
  end.

Definition with_peer_continuation (r : t) (pc : option envelope) : t :=
  mk (response r) (sender r) (state r) pc.

Definition with_result (r : t) (e : envelope) : option t :=
  option_map (fun resp => mk resp (sender r) (state r) (peer_continuation r))
    (response_with_result (response r) e).

Definition with_optional_result (r : t) (e : option envelope) : option t :=
  option_map (fun resp => mk resp (sender r) (state r) (peer_continuation r))
    (response_with_optional_result (response r) e).

Definition with_error (r : t) (e : envelope) : option t :=
  option_map (fun resp => mk resp (sender r) (state r) (peer_continuation r))
    (response_with_error (response r) e).

Definition with_optional_error (r : t) (e : option envelope) : option t :=
  option_map (fun resp => mk resp (sender r) (state r) (peer_continuation r))
    (response_with_optional_error (response r) e).

(** [to_envelope], lines 216-234: the sender continuation and the assembled
    payload envelope, before signing and outer encryption. *)
Definition assemble (r : t) (valid_until : option Date) : Result envelope :=
  let? sender_continuation :=
    match state r with
    | Some st =>
        let continuation :=
          Continuation.with_optional_valid_until (Continuation.new st)
            valid_until in
        let? sender_encryption_key :=
          ok_or (encryption_key (sender r))
            (Anyhow "Sender must have an encryption key") in
        Ok (Some (Continuation.to_envelope continuation
                    (Some sender_encryption_key)))
    | None => Ok None
    end in
  Ok (Envelope.add_optional_assertion RECIPIENT_CONTINUATION
        (peer_continuation r)
        (Envelope.add_optional_assertion SENDER_CONTINUATION
           sender_continuation
           (Envelope.add_assertion SENDER (xid_to_envelope (sender r))
              (response_into_envelope (response r))))).

(** [to_envelope], lines 210-247. *)
Definition to_envelope (r : t) (valid_until : option Date)
    (signer : option key) (recipient : option XIDDocument) : Result envelope :=
  let? result := assemble r valid_until in
  let result := sign_opt result signer in
  match recipient with
  | Some recipient =>
      let? recipient_encryption_key :=
        ok_or (encryption_key recipient)
          (Anyhow "Recipient must have an encryption key") in
      Ok (Envelope.encrypt_to_recipient result recipient_encryption_key)
  | None => Ok result
  end.

(** [try_from_encrypted_envelope], lines 249-297. *)
Definition try_from_encrypted_envelope (encrypted_envelope : envelope)
    (expected_id : option ARID) (now : option Date)
    (recipient_private_key : key) : Result t :=
  let? signed_envelope :=
    Envelope.decrypt_to_recipient encrypted_envelope recipient_private_key in
  let? unwrapped := Envelope.try_unwrap signed_envelope in
  let? sender_envelope := Envelope.object_for_predicate SENDER unwrapped in
  let? sender := xid_try_from sender_envelope in
  let? sender_verification_key :=
    ok_or (verification_key sender)
      (Anyhow "Sender must have a verification key") in
  let? response_envelope :=
    Envelope.verify signed_envelope sender_verification_key in
  let? peer_continuation :=
    Envelope.optional_object_for_predicate SENDER_CONTINUATION
      response_envelope in
  let? _ :=
    match peer_continuation with
    | Some pc =>
        if negb (Envelope.is_encrypted (Envelope.subject pc))
        then Err (Anyhow "Peer continuation must be encrypted") else Ok tt
    | None => Ok tt
    end in
  let? encrypted_continuation :=
    Envelope.optional_object_for_predicate RECIPIENT_CONTINUATION
      response_envelope in
  let? state :=
    match encrypted_continuation with
    | Some ec =>
        let? continuation :=
          Continuation.try_from_envelope ec expected_id now
            (Some recipient_private_key) in
        if Envelope.is_null (Continuation.state continuation) then Ok None
        else Ok (Some (Continuation.state continuation))
    | None => Ok None
    end in
  let? response := response_try_from response_envelope in
  Ok (mk response sender state peer_continuation).

End SealedResponse.

(** ** SealedEvent ([sealed_event.rs]) *)

Module SealedEvent.

Record t := mk {
  event : Event;
  sender : XIDDocument;
  state : option envelope;
  peer_continuation : option envelope
}.

Definition new (content : envelope) (id : ARID) (sender : XIDDocument) : t :=
  mk (mkEvent id content "" None) sender None None.

Definition with_state (ev : t) (st : envelope) : t :=
  mk (event ev) (sender ev) (Some st) (peer_continuation ev).

Definition with_optional_state (ev : t) (st : option envelope) : t :=
  match st with
  | Some st => with_state ev st
  | None => mk (event ev) (sender ev) None (peer_continuation ev)
  end.

Definition with_peer_continuation (ev : t) (pc : envelope) : t :=
  mk (event ev) (sender ev) (state ev) (Some pc).

Definition with_optional_peer_continuation (ev : t) (pc : option envelope) : t :=
  mk (event ev) (sender ev) (state ev) pc.



(** [to_envelope_for_recipients], lines 251-264: the sender continuation,
    from the sender's encryption key. *)
Definition sender_continuation (ev : t) (valid_until : option Date)
    (sender_encryption_key : key) : option envelope :=
  match state ev with
  | Some st =>
      Some (Continuation.to_envelope
              (Continuation.with_optional_valid_until (Continuation.new st)
                 valid_until)
              (Some sender_encryption_key))
  | None =>
      option_map (fun vu =>
        Continuation.to_envelope
          (Continuation.with_valid_until (Continuation.new Envelope.null) vu)
          (Some sender_encryption_key)) valid_until
  end.

(** [to_envelope_for_recipients], lines 247-287: the assembled payload
    envelope, before signing and outer encryption. *)
Definition assemble (ev : t) (valid_until : option Date) : Result envelope :=
  let? sender_encryption_key :=
    ok_or (encryption_key (sender ev)) SenderMissingEncryptionKey in
  Ok (Envelope.add_optional_assertion RECIPIENT_CONTINUATION
        (peer_continuation ev)
        (Envelope.add_optional_assertion SENDER_CONTINUATION
           (sender_continuation ev valid_until sender_encryption_key)
           (Envelope.add_assertion SENDER (xid_to_envelope (sender ev))
              (event_into_envelope (event ev))))).

(** [recipients.iter().map(.. encryption_key() ..).collect::<Result<Vec<_>>>()]. *)
Fixpoint recipient_keys (recipients : list XIDDocument) : Result (list key) :=
  match recipients with
  | [] => Ok []
  | r :: rs =>
      let? k := ok_or (encryption_key r) RecipientMissingEncryptionKey in
      let? ks := recipient_keys rs in
      Ok (k :: ks)
  end.

(** [to_envelope_for_recipients], lines 241-309. *)
Definition to_envelope_for_recipients (ev : t) (valid_until : option Date)
    (signer : option key) (recipients : list XIDDocument) : Result envelope :=
  let? result := assemble ev valid_until in
  let result := sign_opt result signer in
  match recipients with
  | [] => Ok result
  | _ :: _ =>
      let? keys := recipient_keys recipients in
      Envelope.encrypt_subject_to_recipients keys (Envelope.wrap result)
  end.

(** [to_envelope], lines 230-238. *)
Definition to_envelope (ev : t) (valid_until : option Date)
    (signer : option key) (recipient : option XIDDocument) : Result envelope :=
  let recipients := match recipient with Some r => [r] | None => [] end in
  to_envelope_for_recipients ev valid_until signer recipients.

(** [try_from_envelope], lines 311-352. *)
Definition try_from_envelope (encrypted_envelope : envelope)
    (expected_id : option ARID) (now : option Date)
    (recipient_private_key : key) : Result t :=
  let? signed_envelope :=
    Envelope.decrypt_to_recipient encrypted_envelope recipient_private_key in
  let? unwrapped := Envelope.try_unwrap signed_envelope in
  let? sender_envelope := Envelope.object_for_predicate SENDER unwrapped in
  let? sender := xid_try_from sender_envelope in
  let? sender_verification_key :=
    ok_or (verification_key sender) SenderMissingVerificationKey in
  let? event_envelope :=
    Envelope.verify signed_envelope sender_verification_key in
  let? peer_continuation :=
    Envelope.optional_object_for_predicate SENDER_CONTINUATION
      event_envelope in
  let? _ :=
    match peer_continuation with
    | Some pc =>
        if negb (Envelope.is_encrypted (Envelope.subject pc))
        then Err PeerContinuationNotEncrypted else Ok tt
    | None => Ok tt
    end in
  let? encrypted_continuation :=
    Envelope.optional_object_for_predicate RECIPIENT_CONTINUATION
      event_envelope in
  let? state :=
    match encrypted_continuation with
    | Some ec =>
        let? continuation :=
          Continuation.try_from_envelope ec expected_id now
            (Some recipient_private_key) in
        Ok (Some (Continuation.state continuation))
    | None => Ok None
    end in
  let? event := event_try_from event_envelope in
  Ok (mk event sender state peer_continuation).

End SealedEvent.

(** Whether an envelope carries an assertion with predicate [p]. *)
Definition has_assertion (p : known_value) (e : envelope) : bool :=
  existsb (fun a => known_value_eqb (fst a) p) (Envelope.assertions e).

(** ** Builder sequences of [SealedResponse] *)

(** One call of the [SealedResponse] builder interface. *)
Inductive response_builder_op :=
| OpWithResult (e : envelope)
| OpWithOptionalResult (e : option envelope)
| OpWithError (e : envelope)
| OpWithOptionalError (e : option envelope)
| OpWithState (st : envelope)
| OpWithOptionalState (st : option envelope)
| OpWithPeerContinuation (pc : option envelope).

Definition apply_builder_op (r : SealedResponse.t) (op : response_builder_op)
  : option SealedResponse.t :=
  match op with
  | OpWithResult e => SealedResponse.with_result r e
  | OpWithOptionalResult e => SealedResponse.with_optional_result r e
  | OpWithError e => SealedResponse.with_error r e
  | OpWithOptionalError e => SealedResponse.with_optional_error r e
  | OpWithState st => SealedResponse.with_state r st
  | OpWithOptionalState st => SealedResponse.with_optional_state r st
  | OpWithPeerContinuation pc => Some (SealedResponse.with_peer_continuation r pc)
  end.

(** A chain of builder calls; [None] when one of them panics. *)
Fixpoint build_response (r : SealedResponse.t) (ops : list response_builder_op)
  : option SealedResponse.t :=
  match ops with
  | [] => Some r
  | op :: ops =>
      match apply_builder_op r op with
      | Some r' => build_response r' ops
      | None => None
      end
  end.

(** * Properties *)

Lemma known_value_eqb_refl (k : known_value) : known_value_eqb k k = true.
Proof. destruct k; reflexivity. Qed.

Fixpoint envelope_eqb_refl (e : envelope) {struct e} : envelope_eqb e e = true.
Proof.
  destruct e as [v|kv|e|s a|rs e|k e]; simpl.
  - destruct (leaf_eq_dec v v); congruence.
  - apply known_value_eqb_refl.
  - apply envelope_eqb_refl.
  - rewrite (envelope_eqb_refl s); simpl.
    revert a. fix go 1. intros [|[p o] a]; [reflexivity|].
    rewrite known_value_eqb_refl, (envelope_eqb_refl o), go. reflexivity.
  - rewrite (envelope_eqb_refl e), andb_true_r.
    induction rs as [|r rs IH]; [reflexivity|].
    rewrite Nat.eqb_refl, IH. reflexivity.
  - rewrite Nat.eqb_refl. apply envelope_eqb_refl.
Qed.

Module ContinuationFacts.
Import Continuation.

(** Validation of a cleartext continuation envelope: the fields are read
    back (the date through its CBOR encoding), then the date check runs,
    then the id check, each failing with its own message. *)
Lemma try_from_cleartext (c : t) (id : option ARID) (now : option Date) :
  try_from_envelope (to_envelope c None) id now None =
  if negb (is_valid_date (decoded c) now) then Err (Anyhow "Continuation expired")
  else if negb (is_valid_id (decoded c) id) then Err (Anyhow "Continuation ID invalid")
  else Ok (decoded c).
Proof.
  destruct c as [st [vid|] [vu|]]; reflexivity.
Qed.

(** C2: [is_valid_date] passes without [now], and with [now] exactly when
    [valid_until] is absent or strictly later; [is_valid_id] passes without
    an expected id, and with one exactly when [valid_id] is absent or equal;
    [is_valid] is their conjunction. *)
Theorem continuation_validity_rules :
  forall (c : t) (now expected : ARID),
    is_valid_date c None = true /\
    (is_valid_date c (Some now) = true <->
       valid_until c = None \/
       exists vu, valid_until c = Some vu /\ (vu > now)%Z) /\
    is_valid_id c None = true /\
    (is_valid_id c (Some expected) = true <->
       valid_id c = None \/ valid_id c = Some expected) /\
    (forall n e, is_valid c n e = is_valid_date c n && is_valid_id c e).
Proof.
  intros [st vid vu] now expected; simpl.
  repeat split.
  - destruct vu as [vu|]; simpl; intro H; [right|left; reflexivity].
    exists vu. split; [reflexivity|]. apply Z.ltb_lt in H. lia.
  - destruct vu as [vu|]; simpl; intros [H|[x [H1 H2]]];
      try discriminate; [|reflexivity].
    injection H1 as ->. apply Z.ltb_lt. lia.
  - destruct vid as [vid|]; simpl; intro H; [right|left; reflexivity].
    apply Z.eqb_eq in H. subst. reflexivity.
  - destruct vid as [vid|]; simpl; intros [H|H]; try discriminate;
      [|reflexivity].
    injection H as ->. apply Z.eqb_refl.
Qed.

(** C3: the cleartext envelope of any continuation parses back, with the
    continuation's own id or with no expected id, to the continuation with
    the same state and id and its [valid_until] replaced by the date's CBOR
    round trip ([decoded c]); this equals [c] exactly when [valid_until] is
    absent or unchanged by that round trip. *)
Theorem cleartext_roundtrip :
  forall c : t,
    try_from_envelope (to_envelope c None) (valid_id c) None None =
      Ok (decoded c) /\
    try_from_envelope (to_envelope c None) None None None = Ok (decoded c) /\
    (decoded c = c <->
       forall vu, valid_until c = Some vu -> date_roundtrip vu = vu).
Proof.
  intros c. rewrite !try_from_cleartext.
  destruct c as [st vid vu]; unfold decoded; simpl.
  split; [|split].
  - destruct vid as [vid|]; simpl; [rewrite Z.eqb_refl|]; reflexivity.
  - reflexivity.
  - destruct vu as [vu|]; simpl; split.
    + intros H d Hd. injection H as H. injection Hd as <-. exact H.
    + intros H. rewrite (H vu eq_refl). reflexivity.
    + intros _ d Hd. discriminate.
    + intros _. reflexivity.
Qed.

(** C3 fails for a date with a fractional second: the continuation valid
    until 2024-07-04T11:11:11.1Z comes back valid until
    2024-07-04T11:11:11.099999904Z, so it differs from the one encoded;
    the same continuation valid until the whole second 2024-07-04T11:11:11Z
    comes back equal. *)
Lemma cleartext_roundtrip_fractional_date :
  let c := mk Envelope.null None (Some 1720091471100000000%Z) in
  let c' := mk Envelope.null None (Some 1720091471000000000%Z) in
  try_from_envelope (to_envelope c None) None None None =
    Ok (mk Envelope.null None (Some 1720091471099999904%Z)) /\
  try_from_envelope (to_envelope c None) None None None <> Ok c /\
  try_from_envelope (to_envelope c' None) None None None = Ok c'.
Proof.
  cbv zeta. split; [|split].
  - vm_compute. reflexivity.
  - vm_compute. intros H. discriminate H.
  - vm_compute. reflexivity.
Qed.

(** C6: on an expired continuation bound to another id, parsing fails with
    the [anyhow] message "Continuation expired" (the date check runs first),
    not with the error kind [ContinuationExpired]. *)
Theorem try_from_expired_reports_message :
  let c := mk Envelope.null (Some 1%Z) (Some 10%Z) in
  try_from_envelope (to_envelope c None) (Some 2%Z) (Some 20%Z) None =
    Err (Anyhow "Continuation expired") /\
  try_from_envelope (to_envelope c None) (Some 2%Z) (Some 20%Z) None <>
    Err ContinuationExpired.
Proof.
  simpl. split; [reflexivity|discriminate].
Qed.

End ContinuationFacts.

Module ResponseBuilderFacts.
Import SealedResponse.

(** No builder call changes success into failure or back, and on a failure
    response no builder call sets a state. *)
Lemma apply_builder_op_failure (r r' : t) (op : response_builder_op) :
  apply_builder_op r op = Some r' ->
  is_ok r' = is_ok r /\ (is_ok r = false -> state r = None -> state r' = None).
Proof.
  destruct r as [[id res|oid err] sd st pc];
    destruct op as [e|[e|]|e|[e|]|e|[e|]|e]; simpl; intro H;
    try discriminate; injection H as <-; unfold is_ok; simpl;
    split; auto; discriminate.
Qed.

Lemma build_response_failure (r r' : t) (ops : list response_builder_op) :
  build_response r ops = Some r' ->
  is_ok r = false -> state r = None ->
  is_ok r' = false /\ state r' = None.
Proof.
  revert r. induction ops as [|op ops IH]; simpl; intros r H Hok Hst.
  - injection H as <-. auto.
  - destruct (apply_builder_op r op) as [r1|] eqn:E; [|discriminate].
    destruct (apply_builder_op_failure r r1 op E) as [Hok1 Hst1].
    apply (IH r1 H); [congruence|auto].
Qed.

Lemma build_response_is_ok (r r' : t) (ops : list response_builder_op) :
  build_response r ops = Some r' -> is_ok r' = is_ok r.
Proof.
  revert r. induction ops as [|op ops IH]; simpl; intros r H.
  - injection H as <-. reflexivity.
  - destruct (apply_builder_op r op) as [r1|] eqn:E; [|discriminate].
    rewrite (IH r1 H). exact (proj1 (apply_builder_op_failure r r1 op E)).
Qed.

(** C9: [with_state] on a failure or early-failure response panics; on a
    successful response it sets the state; and no chain of builder calls
    starting from a constructor yields a failure response with a state. *)
Theorem failure_response_rejects_state :
  (forall (id : ARID) (sd : XIDDocument) (st : envelope),
      with_state (new_failure id sd) st = None /\
      with_state (new_early_failure sd) st = None) /\
  (forall (r : t) (st : envelope), is_ok r = false -> with_state r st = None) /\
  (forall (r : t) (st : envelope), is_ok r = true ->
      with_state r st = Some (mk (response r) (sender r) (Some st)
                                 (peer_continuation r))) /\
  (forall (id : ARID) (sd : XIDDocument) (r0 r : t)
          (ops : list response_builder_op),
      (r0 = new_success id sd \/ r0 = new_failure id sd \/
       r0 = new_early_failure sd) ->
      build_response r0 ops = Some r -> is_ok r = false -> state r = None).
Proof.
  repeat split.
  - intros r st H. unfold with_state. rewrite H. reflexivity.
  - intros r st H. unfold with_state. rewrite H. reflexivity.
  - intros id sd r0 r ops Hr0 Hb Hok.
    assert (Hok0 : is_ok r0 = false)
      by (rewrite <- (build_response_is_ok r0 r ops Hb); exact Hok).
    apply (build_response_failure r0 r ops Hb Hok0).
    destruct Hr0 as [->|[->| ->]]; reflexivity.
Qed.

(** C10: [with_optional_state None] never panics and clears the state, for
    every response, failures included; [with_optional_state (Some s)] is
    [with_state s], hence panics on a failure response. *)
Theorem with_optional_state_none_clears :
  forall (r : t) (st : envelope),
    with_optional_state r None =
      Some (mk (response r) (sender r) None (peer_continuation r)) /\
    with_optional_state r (Some st) = with_state r st /\
    (is_ok r = false -> with_optional_state r (Some st) = None).
Proof.
  intros r st. repeat split.
  intro H. simpl. unfold with_state. rewrite H. reflexivity.
Qed.

End ResponseBuilderFacts.

Module AssemblyFacts.

Lemma assertions_add_assertion (p : known_value) (o e : envelope) :
  Envelope.assertions (Envelope.add_assertion p o e) =
  (Envelope.assertions e ++ [(p, o)])%list.
Proof. destruct e; reflexivity. Qed.

Lemma has_assertion_add (p q : known_value) (o e : envelope) :
  has_assertion p (Envelope.add_assertion q o e) =
  has_assertion p e || known_value_eqb q p.
Proof.
  unfold has_assertion. rewrite assertions_add_assertion, existsb_app.
  simpl. rewrite orb_false_r. reflexivity.
Qed.

Lemma has_assertion_add_optional (p q : known_value) (oo : option envelope)
    (e : envelope) :
  has_assertion p (Envelope.add_optional_assertion q oo e) =
  has_assertion p e ||
  match oo with Some _ => known_value_eqb q p | None => false end.
Proof.
  destruct oo as [o|]; simpl.
  - apply has_assertion_add.
  - rewrite orb_false_r. reflexivity.
Qed.

Lemma event_envelope_no_sender_continuation (ev : Event) :
  has_assertion SENDER_CONTINUATION (event_into_envelope ev) = false.
Proof.
  unfold event_into_envelope.
  rewrite has_assertion_add_optional, has_assertion_add_optional,
    has_assertion_add.
  destruct (String.eqb (event_note ev) ""), (event_date ev); reflexivity.
Qed.

Lemma response_envelope_no_sender_continuation (r : Response) :
  has_assertion SENDER_CONTINUATION (response_into_envelope r) = false.
Proof. destruct r; reflexivity. Qed.

Lemma recipient_keys_ok (rs : list XIDDocument) (keys : list key) :
  map encryption_key rs = map Some keys ->
  SealedEvent.recipient_keys rs = Ok keys.
Proof.
  revert keys. induction rs as [|r rs IH]; intros [|k keys]; simpl;
    intro H; try discriminate; [reflexivity|].
  injection H as Hk Hrs. rewrite Hk. simpl. rewrite (IH keys Hrs).
  reflexivity.
Qed.

Lemma recipient_keys_missing (rs : list XIDDocument) :
  (exists r, In r rs /\ encryption_key r = None) ->
  SealedEvent.recipient_keys rs = Err RecipientMissingEncryptionKey.
Proof.
  induction rs as [|r0 rs IH]; simpl; intros [r [Hin Hr]]; [contradiction|].
  destruct Hin as [<-|Hin].
  - rewrite Hr. reflexivity.
  - destruct (encryption_key r0); simpl; [|reflexivity].
    rewrite IH by eauto. reflexivity.
Qed.

(** C4: the assembled payload of a [SealedEvent] (the envelope that
    [to_envelope_for_recipients] then signs and encrypts) carries a
    [senderContinuation] exactly when there is a state or a [valid_until];
    that of a [SealedResponse] exactly when there is a state, whatever
    [valid_until] is. *)
Theorem sender_continuation_emission :
  (forall (ev : SealedEvent.t) (vu : option Date) (body : envelope),
      SealedEvent.assemble ev vu = Ok body ->
      (has_assertion SENDER_CONTINUATION body = true <->
       SealedEvent.state ev <> None \/ vu <> None)) /\
  (forall (r : SealedResponse.t) (vu : option Date) (body : envelope),
      SealedResponse.assemble r vu = Ok body ->
      (has_assertion SENDER_CONTINUATION body = true <->
       SealedResponse.state r <> None)).
Proof.
  split.
  - intros ev vu body H. unfold SealedEvent.assemble in H.
    destruct (encryption_key (SealedEvent.sender ev)) as [k|];
      cbv beta iota zeta delta [bind ok_or] in H; [|discriminate].
    injection H as <-.
    rewrite has_assertion_add_optional, has_assertion_add_optional,
      has_assertion_add, event_envelope_no_sender_continuation.
    unfold SealedEvent.sender_continuation.
    destruct (SealedEvent.peer_continuation ev), (SealedEvent.state ev), vu;
      simpl; split; intro H; try reflexivity;
      try discriminate; try (left; discriminate); try (right; discriminate);
      destruct H as [H|H]; congruence.
  - intros r vu body H. unfold SealedResponse.assemble in H.
    destruct (SealedResponse.state r) as [st|];
      cbv beta iota zeta delta [bind ok_or] in H.
    + destruct (encryption_key (SealedResponse.sender r)) as [k|];
        cbv beta iota zeta delta [bind ok_or] in H; [|discriminate].
      injection H as <-.
      rewrite has_assertion_add_optional, has_assertion_add,
        has_assertion_add, response_envelope_no_sender_continuation.
      destruct (SealedResponse.peer_continuation r); simpl;
        split; intro; congruence.
    + injection H as <-.
      rewrite ?has_assertion_add_optional, ?has_assertion_add,
        response_envelope_no_sender_continuation.
      destruct (SealedResponse.peer_continuation r); simpl;
        split; intro H; congruence.
Qed.

(** C7: [SealedEvent.to_envelope_for_recipients] (and [to_envelope]) look
    the sender's encryption key up first: without one they fail with
    [SenderMissingEncryptionKey], even when there is no state and no
    [valid_until], i.e. when no sender continuation would be built. *)
Theorem event_requires_sender_encryption_key :
  forall (ev : SealedEvent.t) (vu : option Date) (signer : option key)
         (rs : list XIDDocument) (recipient : option XIDDocument),
    encryption_key (SealedEvent.sender ev) = None ->
    SealedEvent.to_envelope_for_recipients ev vu signer rs =
      Err SenderMissingEncryptionKey /\
    SealedEvent.to_envelope ev vu signer recipient =
      Err SenderMissingEncryptionKey.
Proof.
  intros ev vu signer rs recipient H.
  unfold SealedEvent.to_envelope, SealedEvent.to_envelope_for_recipients,
    SealedEvent.assemble.
  rewrite H. split; reflexivity.
Qed.

(** C8: once the payload is assembled (the sender has an encryption key),
    an empty recipient list gives back the payload, signed when a signer is
    given, with no outer encryption; a non-empty list whose members all have
    encryption keys gives the signed payload wrapped once and encrypted to
    those keys, one recipient entry per member; a member without an
    encryption key makes it fail with [RecipientMissingEncryptionKey]. *)
Theorem event_recipients_encryption :
  forall (ev : SealedEvent.t) (vu : option Date) (signer : option key)
         (body : envelope),
    SealedEvent.assemble ev vu = Ok body ->
    SealedEvent.to_envelope_for_recipients ev vu signer [] =
      Ok (sign_opt body signer) /\
    (forall (rs : list XIDDocument) (keys : list key),
        rs <> [] -> map encryption_key rs = map Some keys ->
        SealedEvent.to_envelope_for_recipients ev vu signer rs =
          Ok (EEncrypted keys (EWrapped (sign_opt body signer)))) /\
    (forall rs : list XIDDocument,
        (exists r, In r rs /\ encryption_key r = None) ->
        SealedEvent.to_envelope_for_recipients ev vu signer rs =
          Err RecipientMissingEncryptionKey).
Proof.
  intros ev vu signer body H.
  unfold SealedEvent.to_envelope_for_recipients. rewrite H. simpl.
  split; [reflexivity|split].
  - intros [|r rs] keys Hne Hk; [congruence|].
    rewrite (recipient_keys_ok _ _ Hk). reflexivity.
  - intros [|r rs] Hm; [destruct Hm as [? [[] _]]|].
    rewrite (recipient_keys_missing _ Hm). reflexivity.
Qed.

End AssemblyFacts.

Module RequestFacts.
Import AssemblyFacts.

(** Opening an envelope that was signed with [kv] and encrypted to [kr]. *)
Lemma decrypt_sealed (x : envelope) (kv kr : key) :
  Envelope.decrypt_to_recipient
    (Envelope.encrypt_to_recipient (Envelope.sign x kv) kr) kr =
  Ok (Envelope.sign x kv).
Proof.
  unfold Envelope.decrypt_to_recipient, Envelope.encrypt_to_recipient. simpl.
  rewrite Nat.eqb_refl. reflexivity.
Qed.

Lemma unwrap_signed (x : envelope) (kv : key) :
  Envelope.try_unwrap (Envelope.sign x kv) = Ok x.
Proof. reflexivity. Qed.

Lemma verify_signed (x : envelope) (kv : key) :
  Envelope.verify (Envelope.sign x kv) kv = Ok x.
Proof.
  unfold Envelope.verify. simpl.
  rewrite Nat.eqb_refl, envelope_eqb_refl. reflexivity.
Qed.

Lemma objects_add_assertion (p q : known_value) (o e : envelope) :
  Envelope.objects_for_predicate p (Envelope.add_assertion q o e) =
  (Envelope.objects_for_predicate p e ++
   if known_value_eqb q p then [o] else [])%list.
Proof.
  unfold Envelope.objects_for_predicate.
  rewrite assertions_add_assertion, filter_app, map_app. simpl.
  destruct (known_value_eqb q p); reflexivity.
Qed.


(** The payload assembled by [SealedRequest.assemble]. *)
Definition assembled_request (rq : Request) (sd : XIDDocument) (sc : envelope)
    (pc : option envelope) : envelope :=
  Envelope.add_optional_assertion RECIPIENT_CONTINUATION pc
    (Envelope.add_assertion SENDER_CONTINUATION sc
       (Envelope.add_assertion SENDER (xid_to_envelope sd)
          (request_into_envelope rq))).

(** The continuation a request carries for its sender. *)
Definition request_continuation (r : SealedRequest.t) (vu : option Date)
  : Continuation.t :=
  Continuation.mk
    (match SealedRequest.state r with Some s => s | None => Envelope.null end)
    (Some (SealedRequest.id r)) vu.

Lemma assemble_ok (r : SealedRequest.t) (vu : option Date) (ke : key) :
  encryption_key (SealedRequest.sender r) = Some ke ->
  SealedRequest.assemble r vu =
  Ok (assembled_request (SealedRequest.request r) (SealedRequest.sender r)
        (Continuation.to_envelope (request_continuation r vu) (Some ke))
        (SealedRequest.peer_continuation r)).
Proof.
  intro H. unfold SealedRequest.assemble. rewrite H.
  destruct vu; reflexivity.
Qed.

Lemma assemble_err (r : SealedRequest.t) (vu : option Date) :
  encryption_key (SealedRequest.sender r) = None ->
  SealedRequest.assemble r vu = Err SenderMissingEncryptionKey.
Proof. intro H. unfold SealedRequest.assemble. rewrite H. reflexivity. Qed.

Lemma assembled_request_sender (rq : Request) (sd : XIDDocument) (sc : envelope)
    (pc : option envelope) :
  Envelope.objects_for_predicate SENDER (assembled_request rq sd sc pc) =
  [xid_to_envelope sd].
Proof.
  destruct rq as [rid rb rn rd]; unfold assembled_request, request_into_envelope;
  cbn [request_note request_date].
  destruct pc, (String.eqb rn ""), rd; reflexivity.
Qed.

Lemma assembled_request_sender_continuation (rq : Request) (sd : XIDDocument)
    (sc : envelope) (pc : option envelope) :
  Envelope.objects_for_predicate SENDER_CONTINUATION
    (assembled_request rq sd sc pc) = [sc].
Proof.
  destruct rq as [rid rb rn rd]; unfold assembled_request, request_into_envelope;
  cbn [request_note request_date].
  destruct pc, (String.eqb rn ""), rd; reflexivity.
Qed.

Lemma assembled_request_recipient_continuation (rq : Request) (sd : XIDDocument)
    (sc : envelope) :
  Envelope.objects_for_predicate RECIPIENT_CONTINUATION
    (assembled_request rq sd sc None) = [].
Proof.
  destruct rq as [rid rb rn rd]; unfold assembled_request, request_into_envelope;
  cbn [request_note request_date].
  destruct (String.eqb rn ""), rd; reflexivity.
Qed.

Lemma assembled_request_request (rq : Request) (sd : XIDDocument) (sc : envelope)
    (pc : option envelope) :
  request_try_from (assembled_request rq sd sc pc) = Ok (request_decoded rq).
Proof.
  destruct rq as [rid rb rn rd]; unfold assembled_request, request_into_envelope;
  cbn [request_note request_date].
  simpl. destruct (String.eqb rn "") eqn:E.
  - apply String.eqb_eq in E. subst rn.
    destruct pc, rd; reflexivity.
  - destruct pc, rd; reflexivity.
Qed.



Lemma decrypt_other_key (y : envelope) (kr k : key) :
  k <> kr ->
  Envelope.decrypt_to_recipient (Envelope.encrypt_to_recipient y kr) k =
  Err (EnvelopeError UnknownRecipient).
Proof.
  intro H. apply Nat.eqb_neq in H.
  unfold Envelope.decrypt_to_recipient, Envelope.encrypt_to_recipient. simpl.
  rewrite H. reflexivity.
Qed.

Lemma verify_other_key (x : envelope) (k kv : key) :
  k <> kv ->
  Envelope.verify (Envelope.sign x k) kv = Err (EnvelopeError UnverifiedSignature).
Proof.
  intro H. apply Nat.eqb_neq in H.
  unfold Envelope.verify. simpl. rewrite H. reflexivity.
Qed.

Lemma optional_objects (p : known_value) (e : envelope) (o : option envelope) :
  Envelope.objects_for_predicate p e =
    match o with Some x => [x] | None => [] end ->
  Envelope.optional_object_for_predicate p e = Ok o.
Proof.
  unfold Envelope.optional_object_for_predicate. intros ->.
  destruct o; reflexivity.
Qed.

Lemma assembled_request_recipient_continuation_gen (rq : Request)
    (sd : XIDDocument) (sc : envelope) (pc : option envelope) :
  Envelope.objects_for_predicate RECIPIENT_CONTINUATION
    (assembled_request rq sd sc pc) =
  match pc with Some p => [p] | None => [] end.
Proof.
  destruct rq as [rid rb rn rd]; unfold assembled_request, request_into_envelope;
  cbn [request_note request_date].
  destruct pc, (String.eqb rn ""), rd; reflexivity.
Qed.

(** Opening a request that was signed with the sender's verification key
    pair and encrypted to the recipient: the request (its date through its
    CBOR encoding), the sender and the sender's continuation come back;
    the state is what the recipient continuation, if any, gives. *)
Lemma request_open (r : SealedRequest.t) (vu : option Date) (ke kv kr : key)
    (rd : XIDDocument) (env : envelope) (id : option ARID)
    (now : option Date) :
  encryption_key (SealedRequest.sender r) = Some ke ->
  verification_key (SealedRequest.sender r) = Some kv ->
  encryption_key rd = Some kr ->
  SealedRequest.to_envelope r vu (Some kv) (Some rd) = Ok env ->
  SealedRequest.try_from_envelope env id now kr =
  let? state :=
    match SealedRequest.peer_continuation r with
    | Some ec =>
        let? c := Continuation.try_from_envelope ec id now (Some kr) in
        Ok (Some (Continuation.state c))
    | None => Ok None
    end in
  Ok (SealedRequest.mk (request_decoded (SealedRequest.request r))
        (SealedRequest.sender r) state
        (Some (Continuation.to_envelope (request_continuation r vu) (Some ke)))).
Proof.
  intros Hke Hkv Hkr Henv.
  set (sc := Continuation.to_envelope (request_continuation r vu) (Some ke)).
  set (pc := SealedRequest.peer_continuation r).
  pose proof (assembled_request_sender (SealedRequest.request r)
                (SealedRequest.sender r) sc pc) as Hs.
  pose proof (assembled_request_sender_continuation (SealedRequest.request r)
                (SealedRequest.sender r) sc pc) as Hsc.
  pose proof (assembled_request_recipient_continuation_gen
                (SealedRequest.request r) (SealedRequest.sender r) sc pc) as Hrc.
  pose proof (assembled_request_request (SealedRequest.request r)
                (SealedRequest.sender r) sc pc) as Hrq.
  unfold SealedRequest.to_envelope in Henv.
  rewrite (assemble_ok r vu ke Hke) in Henv. fold sc pc in Henv.
  set (body := assembled_request (SealedRequest.request r)
                 (SealedRequest.sender r) sc pc) in *.
  clearbody body.
  rewrite Hkr in Henv. cbn [bind sign_opt ok_or] in Henv.
  injection Henv as <-.
  unfold SealedRequest.try_from_envelope.
  rewrite decrypt_sealed. cbn [bind]. rewrite unwrap_signed. cbn [bind].
  unfold Envelope.object_for_predicate. rewrite Hs.
  cbn [bind xid_try_from xid_to_envelope].
  rewrite Hkv. cbn [bind ok_or]. rewrite verify_signed. cbn [bind].
  rewrite (optional_objects _ _ (Some sc)) by exact Hsc. cbn [bind].
  cbn [Envelope.subject Envelope.is_encrypted negb].
  replace (Envelope.is_encrypted (Envelope.subject sc)) with true
    by (subst sc; destruct vu; reflexivity).
  cbn [negb bind].
  rewrite (optional_objects _ _ pc) by exact Hrc. cbn [bind].
  destruct pc as [ec|]; cbn [bind].
  - destruct (Continuation.try_from_envelope ec id now (Some kr)); cbn [bind];
      [rewrite Hrq|]; reflexivity.
  - rewrite Hrq. reflexivity.
Qed.

End RequestFacts.

Module RequestClaims.
Import AssemblyFacts RequestFacts.

(** Identities and keys of the concrete runs below: key pair 1 belongs to
    the client, key pair 2 to the server. *)
Definition client : XIDDocument := mkXID 1%Z (Some 1%nat) (Some 1%nat).
Definition server : XIDDocument := mkXID 2%Z (Some 2%nat) (Some 2%nat).
Definition client_request : SealedRequest.t :=
  SealedRequest.new (ELeaf (LText "test")) 7%Z client.



(** A continuation the server issued for itself with no state, only a
    [valid_until] (what [SealedEvent] emits for a [valid_until] alone),
    returned by the client in its next request. *)
Definition null_state_continuation : envelope :=
  Continuation.to_envelope (Continuation.mk Envelope.null None (Some 100%Z))
    (Some 2%nat).

(** C5: the server parsing that request gets [state () = Some null], not
    [None]; the response parser, given the same returned continuation,
    reports [None]. *)
Theorem request_keeps_null_state :
  (exists env sr,
      SealedRequest.to_envelope
        (SealedRequest.with_peer_continuation client_request
           null_state_continuation) None (Some 1%nat) (Some server) = Ok env /\
      SealedRequest.try_from_envelope env None (Some 50%Z) 2%nat = Ok sr /\
      SealedRequest.state sr = Some Envelope.null) /\
  (exists env sr,
      SealedResponse.to_envelope
        (SealedResponse.with_peer_continuation
           (SealedResponse.new_success 7%Z client)
           (Some null_state_continuation)) None (Some 1%nat) (Some server) =
        Ok env /\
      SealedResponse.try_from_encrypted_envelope env None (Some 50%Z) 2%nat =
        Ok sr /\
      SealedResponse.state sr = None).
Proof.
  split; do 2 eexists; split; [reflexivity| |reflexivity|];
    split; reflexivity.
Qed.

End RequestClaims.

Module Runs.
Import AssemblyFacts RequestFacts RequestClaims.

(** A sender identity without an encryption key. *)
Definition keyless : XIDDocument := mkXID 3%Z None (Some 3%nat).
Definition broadcast_event (sd : XIDDocument) : SealedEvent.t :=
  SealedEvent.new (ELeaf (LText "test")) 7%Z sd.

(** C4 (as stated): a successful response with no state but a
    [valid_until] assembles without any [senderContinuation]. *)
Lemma response_valid_until_without_continuation :
  exists body,
    SealedResponse.assemble (SealedResponse.new_success 7%Z client)
      (Some 100%Z) = Ok body /\
    has_assertion SENDER_CONTINUATION body = false.
Proof. eexists. split; reflexivity. Qed.

(** C7 (as stated): an event with no state and no [valid_until] from a
    sender without encryption key is refused. *)
Lemma stateless_event_keyless_sender_fails :
  SealedEvent.to_envelope_for_recipients (broadcast_event keyless) None
    (Some 3%nat) [] = Err SenderMissingEncryptionKey /\
  SealedEvent.to_envelope (broadcast_event keyless) None (Some 3%nat) None =
    Err SenderMissingEncryptionKey.
Proof. split; reflexivity. Qed.


Lemma sender_continuation_emission_witness :
  (exists body,
      SealedEvent.assemble (broadcast_event client) (Some 100%Z) = Ok body /\
      (has_assertion SENDER_CONTINUATION body = true <->
       SealedEvent.state (broadcast_event client) <> None \/
       Some 100%Z <> None)) /\
  (exists body,
      SealedResponse.assemble
        (SealedResponse.mk (response_new_success 7%Z) client
           (Some (ELeaf (LText "s"))) None) None = Ok body /\
      (has_assertion SENDER_CONTINUATION body = true <->
       Some (ELeaf (LText "s")) <> None)).
Proof.
  destruct sender_continuation_emission as [H1 H2].
  split; eexists; split; try reflexivity.
  - apply (H1 (broadcast_event client) (Some 100%Z)). reflexivity.
  - apply (H2 (SealedResponse.mk (response_new_success 7%Z) client
                 (Some (ELeaf (LText "s"))) None) None).
    reflexivity.
Defined.

Lemma event_requires_sender_encryption_key_witness :
  SealedEvent.to_envelope_for_recipients (broadcast_event keyless) None
    (Some 3%nat) [] = Err SenderMissingEncryptionKey /\
  SealedEvent.to_envelope (broadcast_event keyless) None (Some 3%nat) None =
    Err SenderMissingEncryptionKey.
Proof.
  apply (event_requires_sender_encryption_key (broadcast_event keyless) None
           (Some 3%nat) [] None).
  reflexivity.
Defined.

Lemma event_recipients_encryption_witness :
  exists body,
    SealedEvent.assemble (broadcast_event client) None = Ok body /\
    SealedEvent.to_envelope_for_recipients (broadcast_event client) None
      (Some 1%nat) [] = Ok (sign_opt body (Some 1%nat)) /\
    SealedEvent.to_envelope_for_recipients (broadcast_event client) None
      (Some 1%nat) [server; client] =
      Ok (EEncrypted [2%nat; 1%nat] (EWrapped (sign_opt body (Some 1%nat)))) /\
    SealedEvent.to_envelope_for_recipients (broadcast_event client) None
      (Some 1%nat) [server; keyless] = Err RecipientMissingEncryptionKey.
Proof.
  eexists. split; [reflexivity|].
  destruct (event_recipients_encryption (broadcast_event client) None
              (Some 1%nat) _ eq_refl) as [H1 [H2 H3]].
  split; [exact H1|split].
  - apply H2; [discriminate|reflexivity].
  - apply H3. exists keyless. split; [right; left; reflexivity|reflexivity].
Defined.

Lemma failure_response_rejects_state_witness :
  SealedResponse.with_state (SealedResponse.new_failure 7%Z server)
    (ELeaf (LText "s")) = None /\
  SealedResponse.with_state (SealedResponse.new_success 7%Z server)
    (ELeaf (LText "s")) =
    Some (SealedResponse.mk (response_new_success 7%Z) server
            (Some (ELeaf (LText "s"))) None) /\
  match build_response (SealedResponse.new_failure 7%Z server)
          [OpWithError (ELeaf (LText "e")); OpWithOptionalState None;
           OpWithPeerContinuation (Some null_state_continuation)] with
  | Some r => SealedResponse.state r = None
  | None => False
  end.
Proof.
  destruct ResponseBuilderFacts.failure_response_rejects_state as [_ [H2 [H3 H4]]].
  split; [apply H2; reflexivity|split; [apply H3; reflexivity|]].
  remember (build_response (SealedResponse.new_failure 7%Z server)
              [OpWithError (ELeaf (LText "e")); OpWithOptionalState None;
               OpWithPeerContinuation (Some null_state_continuation)])
    as res eqn:E.
  destruct res as [r|]; [|discriminate E].
  apply (H4 7%Z server (SealedResponse.new_failure 7%Z server) r
           [OpWithError (ELeaf (LText "e")); OpWithOptionalState None;
            OpWithPeerContinuation (Some null_state_continuation)]);
    [right; left; reflexivity|symmetry; exact E|].
  rewrite (ResponseBuilderFacts.build_response_is_ok _ _ _ (eq_sym E)).
  reflexivity.
Defined.

Lemma with_optional_state_none_clears_witness :
  SealedResponse.with_optional_state (SealedResponse.new_early_failure server)
    (Some (ELeaf (LText "s"))) = None.
Proof.
  apply (ResponseBuilderFacts.with_optional_state_none_clears
           (SealedResponse.new_early_failure server) (ELeaf (LText "s"))).
  reflexivity.
Defined.

End Runs.

(** * Further properties of the code *)

Module ContinuationExtra.
Import Continuation.

(** The field-reading half of [try_from_envelope]: everything before the
    validity checks. *)
Definition read_fields (env : envelope) (recipient : option key) : Result t :=
  let? env :=
    match recipient with
    | Some r => Envelope.decrypt_to_recipient env r
    | None => Ok env
    end in
  let? st := Envelope.try_unwrap env in
  let? vid := Envelope.extract_optional_arid ID env in
  let? vu := Envelope.extract_optional_date VALID_UNTIL env in
  Ok (mk st vid vu).

(** The checking half of [try_from_envelope]. *)
Definition check (c : t) (id : option ARID) (now : option Date) : Result t :=
  if negb (is_valid_date c now) then Err (Anyhow "Continuation expired")
  else if negb (is_valid_id c id) then Err (Anyhow "Continuation ID invalid")
  else Ok c.

Lemma try_from_split (env : envelope) (id : option ARID) (now : option Date)
    (r : option key) :
  try_from_envelope env id now r = bind (read_fields env r) (fun c => check c id now).
Proof.
  unfold try_from_envelope, read_fields, check, bind.
  destruct (match r with
            | Some r => Envelope.decrypt_to_recipient env r
            | None => Ok env end) as [e|]; [|reflexivity].
  destruct (Envelope.try_unwrap e); [|reflexivity].
  destruct (Envelope.extract_optional_arid ID e); [|reflexivity].
  destruct (Envelope.extract_optional_date VALID_UNTIL e); reflexivity.
Qed.

Lemma try_from_ok (env : envelope) (id : option ARID) (now : option Date)
    (r : option key) (c : t) :
  try_from_envelope env id now r = Ok c ->
  read_fields env r = Ok c /\ is_valid_date c now = true /\
  is_valid_id c id = true.
Proof.
  rewrite try_from_split. unfold bind, check.
  destruct (read_fields env r) as [c0|]; [|discriminate].
  destruct (is_valid_date c0 now) eqn:Ed, (is_valid_id c0 id) eqn:Ei;
    simpl; intro H; try discriminate.
  injection H as <-. auto.
Qed.

Lemma try_from_of_fields (env : envelope) (id : option ARID)
    (now : option Date) (r : option key) (c : t) :
  read_fields env r = Ok c ->
  try_from_envelope env id now r = check c id now.
Proof. intro H. rewrite try_from_split, H. reflexivity. Qed.

Lemma decrypt_keyed (c : t) (k : key) :
  Envelope.decrypt_to_recipient (to_envelope c (Some k)) k = Ok (to_envelope c None).
Proof.
  unfold to_envelope, Envelope.decrypt_to_recipient, Envelope.encrypt_to_recipient.
  cbn. rewrite Nat.eqb_refl. reflexivity.
Qed.

Lemma try_from_keyed (env : envelope) (id : option ARID) (now : option Date)
    (k : key) :
  try_from_envelope env id now (Some k) =
  bind (Envelope.decrypt_to_recipient env k)
    (fun e => try_from_envelope e id now None).
Proof. reflexivity. Qed.

(** Parsing the sender-encrypted envelope of a continuation with the same
    key: the continuation read back is [decoded c]. *)
Lemma try_from_encrypted (c : t) (k : key) (id : option ARID)
    (now : option Date) :
  try_from_envelope (to_envelope c (Some k)) id now (Some k) =
  check (decoded c) id now.
Proof.
  rewrite try_from_keyed, decrypt_keyed. cbn [bind].
  rewrite ContinuationFacts.try_from_cleartext. reflexivity.
Qed.

(** A continuation encrypted to key [k] and parsed back with [k] is read
    back as [decoded c] (same state and id, [valid_until] through its CBOR
    encoding); that continuation is returned when it is valid for the given
    time and expected id; otherwise the date check fails first with
    "Continuation expired", then the id check with "Continuation ID
    invalid". *)
Theorem encrypted_roundtrip :
  forall (c : t) (k : key) (id : option ARID) (now : option Date),
    try_from_envelope (to_envelope c (Some k)) id now (Some k) =
    if negb (is_valid_date (decoded c) now)
    then Err (Anyhow "Continuation expired")
    else if negb (is_valid_id (decoded c) id)
    then Err (Anyhow "Continuation ID invalid")
    else Ok (decoded c).
Proof. intros. apply try_from_encrypted. Qed.

(** A sender-encrypted continuation cannot be read with another key
    ([UnknownRecipient]) nor without one ([NotWrapped]: the encrypted
    subject is not a wrapped envelope), and a cleartext one cannot be read
    with a key ([UnknownRecipient]: it has no recipient to open). *)
Theorem continuation_key_mismatch :
  forall (c : t) (k k' : key) (id : option ARID) (now : option Date),
    k' <> k ->
    try_from_envelope (to_envelope c (Some k)) id now (Some k') =
      Err (EnvelopeError UnknownRecipient) /\
    try_from_envelope (to_envelope c (Some k)) id now None =
      Err (EnvelopeError NotWrapped) /\
    try_from_envelope (to_envelope c None) id now (Some k) =
      Err (EnvelopeError UnknownRecipient).
Proof.
  intros c k k' id now Hk.
  destruct c as [st vid vu]. unfold to_envelope, try_from_envelope.
  apply Nat.eqb_neq in Hk.
  destruct vid, vu; cbn; rewrite ?Hk; repeat split.
Qed.

(** Whatever the envelope and key, a continuation accepted at time [t] is
    also accepted, equal, at every earlier time and with no time at all;
    and once the time reaches its [valid_until] the same envelope is
    refused with "Continuation expired". *)
Theorem expiry_monotone :
  forall (env : envelope) (id : option ARID) (r : option key) (c : t)
         (now : Date),
    try_from_envelope env id (Some now) r = Ok c ->
    (forall earlier, (earlier <= now)%Z ->
       try_from_envelope env id (Some earlier) r = Ok c) /\
    try_from_envelope env id None r = Ok c /\
    (forall later vu, valid_until c = Some vu -> (vu <= later)%Z ->
       try_from_envelope env id (Some later) r =
         Err (Anyhow "Continuation expired")).
Proof.
  intros env id r c now H.
  destruct (try_from_ok _ _ _ _ _ H) as [Hf [Hd Hi]].
  repeat split.
  - intros earlier Hle. rewrite (try_from_of_fields _ _ _ _ _ Hf).
    unfold check. rewrite Hi.
    unfold is_valid_date in *. destruct (valid_until c) as [vu|]; [|reflexivity].
    apply Z.ltb_lt in Hd. replace (earlier <? vu)%Z with true
      by (symmetry; apply Z.ltb_lt; lia). reflexivity.
  - rewrite (try_from_of_fields _ _ _ _ _ Hf). unfold check. rewrite Hi.
    reflexivity.
  - intros later vu Hvu Hle. rewrite (try_from_of_fields _ _ _ _ _ Hf).
    unfold check, is_valid_date. rewrite Hvu.
    replace (later <? vu)%Z with false by (symmetry; apply Z.ltb_ge; lia).
    reflexivity.
Qed.

(** Whatever the envelope and key, a continuation accepted under an
    expected id [y] is bound to no id or to [y], and is accepted, equal,
    with no expected id; one accepted with no expected id and bound to [x]
    is refused under any other expected id with "Continuation ID invalid". *)
Theorem id_binding :
  forall (env : envelope) (now : option Date) (r : option key) (c : t),
    (forall y, try_from_envelope env (Some y) now r = Ok c ->
       (valid_id c = None \/ valid_id c = Some y) /\
       try_from_envelope env None now r = Ok c) /\
    (forall x y, try_from_envelope env None now r = Ok c ->
       valid_id c = Some x -> x <> y ->
       try_from_envelope env (Some y) now r =
         Err (Anyhow "Continuation ID invalid")).
Proof.
  intros env now r c. split.
  - intros y H. destruct (try_from_ok _ _ _ _ _ H) as [Hf [Hd Hi]].
    split.
    + unfold is_valid_id in Hi. destruct (valid_id c) as [x|]; [right|left];
        [|reflexivity].
      apply Z.eqb_eq in Hi. subst. reflexivity.
    + rewrite (try_from_of_fields _ _ _ _ _ Hf). unfold check. rewrite Hd.
      reflexivity.
  - intros x y H Hx Hxy. destruct (try_from_ok _ _ _ _ _ H) as [Hf [Hd _]].
    rewrite (try_from_of_fields _ _ _ _ _ Hf). unfold check, is_valid_id.
    rewrite Hd, Hx. apply Z.eqb_neq in Hxy. rewrite Hxy. reflexivity.
Qed.

End ContinuationExtra.

Module SealedExtra.
Import AssemblyFacts RequestFacts ContinuationExtra.

(** [SealedRequest.to_envelope] looks the sender's encryption key up first:
    without one it fails with [SenderMissingEncryptionKey] whatever the
    signer and recipient; with one, a recipient without an encryption key
    makes it fail with [RecipientMissingEncryptionKey]; with no recipient it
    returns the assembled payload, signed when a signer is given, in the
    clear. *)
Theorem request_to_envelope_errors :
  forall (r : SealedRequest.t) (vu : option Date) (signer : option key),
    (forall recipient, encryption_key (SealedRequest.sender r) = None ->
       SealedRequest.to_envelope r vu signer recipient =
         Err SenderMissingEncryptionKey) /\
    (forall ke rd, encryption_key (SealedRequest.sender r) = Some ke ->
       encryption_key rd = None ->
       SealedRequest.to_envelope r vu signer (Some rd) =
         Err RecipientMissingEncryptionKey) /\
    (forall ke, encryption_key (SealedRequest.sender r) = Some ke ->
       SealedRequest.to_envelope r vu signer None =
         Ok (sign_opt
               (assembled_request (SealedRequest.request r)
                  (SealedRequest.sender r)
                  (Continuation.to_envelope (request_continuation r vu)
                     (Some ke))
                  (SealedRequest.peer_continuation r)) signer)).
Proof.
  intros r vu signer. repeat split.
  - intros recipient H. unfold SealedRequest.to_envelope.
    rewrite (assemble_err r vu H). reflexivity.
  - intros ke rd H Hrd. unfold SealedRequest.to_envelope.
    rewrite (assemble_ok r vu ke H). cbn [bind]. rewrite Hrd. reflexivity.
  - intros ke H. unfold SealedRequest.to_envelope.
    rewrite (assemble_ok r vu ke H). reflexivity.
Qed.

(** A request whose peer continuation is a continuation the recipient
    encrypted to itself, signed with the sender's key pair and encrypted to
    the recipient, is parsed by the recipient (at a time and with an
    expected id for which that continuation, as read back, is valid) into
    the request (its date read back through its CBOR encoding), the sender,
    the state the continuation carried, and the sender's own continuation
    as peer continuation. *)
Theorem request_roundtrip_with_continuation :
  forall (r : SealedRequest.t) (vu : option Date) (ke kv kr : key)
         (rd : XIDDocument) (c : Continuation.t) (env : envelope)
         (id : option ARID) (now : option Date),
    encryption_key (SealedRequest.sender r) = Some ke ->
    verification_key (SealedRequest.sender r) = Some kv ->
    encryption_key rd = Some kr ->
    SealedRequest.peer_continuation r =
      Some (Continuation.to_envelope c (Some kr)) ->
    Continuation.is_valid (Continuation.decoded c) now id = true ->
    SealedRequest.to_envelope r vu (Some kv) (Some rd) = Ok env ->
    SealedRequest.try_from_envelope env id now kr =
      Ok (SealedRequest.mk (request_decoded (SealedRequest.request r))
            (SealedRequest.sender r)
            (Some (Continuation.state c))
            (Some (Continuation.to_envelope (request_continuation r vu)
                     (Some ke)))).
Proof.
  intros r vu ke kv kr rd c env id now Hke Hkv Hkr Hpc Hv Henv.
  rewrite (request_open r vu ke kv kr rd env id now Hke Hkv Hkr Henv), Hpc.
  rewrite try_from_encrypted. unfold check.
  unfold Continuation.is_valid in Hv. apply andb_prop in Hv as [Hd Hi].
  rewrite Hd, Hi. reflexivity.
Qed.

(** Rejections of [SealedRequest.try_from_envelope]: an envelope encrypted
    to another key fails with [UnknownRecipient]; one that names a sender
    without a verification key fails with [SenderMissingVerificationKey];
    one signed with a key other than the sender's fails with
    [UnverifiedSignature]; one whose sender continuation is not encrypted
    fails with [PeerContinuationNotEncrypted]. *)
Theorem request_parse_rejections :
  (forall (y : envelope) (kr k : key) (id : option ARID) (now : option Date),
     k <> kr ->
     SealedRequest.try_from_envelope (Envelope.encrypt_to_recipient y kr)
       id now k = Err (EnvelopeError UnknownRecipient)) /\
  forall (body : envelope) (sd : XIDDocument) (k kr : key)
         (id : option ARID) (now : option Date),
    Envelope.objects_for_predicate SENDER body = [xid_to_envelope sd] ->
    (verification_key sd = None ->
     SealedRequest.try_from_envelope
       (Envelope.encrypt_to_recipient (Envelope.sign body k) kr) id now kr =
       Err SenderMissingVerificationKey) /\
    (forall kv, verification_key sd = Some kv -> k <> kv ->
     SealedRequest.try_from_envelope
       (Envelope.encrypt_to_recipient (Envelope.sign body k) kr) id now kr =
       Err (EnvelopeError UnverifiedSignature)) /\
    (forall pc, verification_key sd = Some k ->
     Envelope.objects_for_predicate SENDER_CONTINUATION body = [pc] ->
     Envelope.is_encrypted (Envelope.subject pc) = false ->
     SealedRequest.try_from_envelope
       (Envelope.encrypt_to_recipient (Envelope.sign body k) kr) id now kr =
       Err PeerContinuationNotEncrypted).
Proof.
  split.
  - intros y kr k id now H. unfold SealedRequest.try_from_envelope.
    rewrite (decrypt_other_key y kr k H). reflexivity.
  - intros body sd k kr id now Hs.
    unfold SealedRequest.try_from_envelope.
    rewrite decrypt_sealed. cbn [bind]. rewrite unwrap_signed. cbn [bind].
    unfold Envelope.object_for_predicate. rewrite Hs.
    cbn [bind xid_try_from xid_to_envelope].
    repeat split.
    + intro Hv. rewrite Hv. reflexivity.
    + intros kv Hv Hk. rewrite Hv. cbn [bind ok_or].
      rewrite (verify_other_key body k kv Hk). reflexivity.
    + intros pc Hv Hsc Hpc. rewrite Hv. cbn [bind ok_or].
      rewrite verify_signed. cbn [bind].
      rewrite (optional_objects _ _ (Some pc)) by exact Hsc. cbn [bind].
      rewrite Hpc. reflexivity.
Qed.

End SealedExtra.

Module ResponseExtra.
Import AssemblyFacts RequestFacts ContinuationExtra SealedExtra.

(** The payload assembled by [SealedResponse.assemble]. *)
Definition assembled_response (resp : Response) (sd : XIDDocument)
    (sco pc : option envelope) : envelope :=
  Envelope.add_optional_assertion RECIPIENT_CONTINUATION pc
    (Envelope.add_optional_assertion SENDER_CONTINUATION sco
       (Envelope.add_assertion SENDER (xid_to_envelope sd)
          (response_into_envelope resp))).

(** The sender continuation a response carries, given the sender's
    encryption key. *)
Definition response_sender_continuation (r : SealedResponse.t)
    (vu : option Date) (ke : key) : option envelope :=
  option_map (fun st => Continuation.to_envelope (Continuation.mk st None vu)
                          (Some ke)) (SealedResponse.state r).

Lemma response_assemble_ok (r : SealedResponse.t) (vu : option Date) (ke : key) :
  encryption_key (SealedResponse.sender r) = Some ke ->
  SealedResponse.assemble r vu =
  Ok (assembled_response (SealedResponse.response r) (SealedResponse.sender r)
        (response_sender_continuation r vu ke)
        (SealedResponse.peer_continuation r)).
Proof.
  intro H. unfold SealedResponse.assemble, response_sender_continuation.
  destruct (SealedResponse.state r); [rewrite H; destruct vu|]; reflexivity.
Qed.

Lemma response_assemble_stateless (r : SealedResponse.t) (vu : option Date) :
  SealedResponse.state r = None ->
  SealedResponse.assemble r vu =
  Ok (assembled_response (SealedResponse.response r) (SealedResponse.sender r)
        None (SealedResponse.peer_continuation r)).
Proof. intro H. unfold SealedResponse.assemble. rewrite H. reflexivity. Qed.

Lemma assembled_response_sender (resp : Response) (sd : XIDDocument)
    (sco pc : option envelope) :
  Envelope.objects_for_predicate SENDER (assembled_response resp sd sco pc) =
  [xid_to_envelope sd].
Proof. destruct resp, sco, pc; reflexivity. Qed.

Lemma assembled_response_sender_continuation (resp : Response)
    (sd : XIDDocument) (sco pc : option envelope) :
  Envelope.objects_for_predicate SENDER_CONTINUATION
    (assembled_response resp sd sco pc) =
  match sco with Some s => [s] | None => [] end.
Proof. destruct resp, sco, pc; reflexivity. Qed.

Lemma assembled_response_recipient_continuation (resp : Response)
    (sd : XIDDocument) (sco pc : option envelope) :
  Envelope.objects_for_predicate RECIPIENT_CONTINUATION
    (assembled_response resp sd sco pc) =
  match pc with Some p => [p] | None => [] end.
Proof. destruct resp, sco, pc; reflexivity. Qed.

Lemma assembled_response_response (resp : Response) (sd : XIDDocument)
    (sco pc : option envelope) :
  response_try_from (assembled_response resp sd sco pc) = Ok resp.
Proof. destruct resp, sco, pc; reflexivity. Qed.

Lemma response_sender_continuation_encrypted (r : SealedResponse.t)
    (vu : option Date) (ke : key) (s : envelope) :
  response_sender_continuation r vu ke = Some s ->
  Envelope.is_encrypted (Envelope.subject s) = true.
Proof.
  unfold response_sender_continuation.
  destruct (SealedResponse.state r); simpl; intro H; [|discriminate].
  injection H as <-. destruct vu; reflexivity.
Qed.

(** Opening a response that was signed with the sender's verification key
    pair and encrypted to the recipient. *)
Lemma response_open (r : SealedResponse.t) (vu : option Date) (ke kv kr : key)
    (rd : XIDDocument) (env : envelope) (expected : option ARID)
    (now : option Date) :
  encryption_key (SealedResponse.sender r) = Some ke ->
  verification_key (SealedResponse.sender r) = Some kv ->
  encryption_key rd = Some kr ->
  SealedResponse.to_envelope r vu (Some kv) (Some rd) = Ok env ->
  SealedResponse.try_from_encrypted_envelope env expected now kr =
  let? state :=
    match SealedResponse.peer_continuation r with
    | Some ec =>
        let? c := Continuation.try_from_envelope ec expected now (Some kr) in
        if Envelope.is_null (Continuation.state c) then Ok None
        else Ok (Some (Continuation.state c))
    | None => Ok None
    end in
  Ok (SealedResponse.mk (SealedResponse.response r) (SealedResponse.sender r)
        state (response_sender_continuation r vu ke)).
Proof.
  intros Hke Hkv Hkr Henv.
  set (sco := response_sender_continuation r vu ke) in *.
  assert (Hsco : forall s, sco = Some s ->
                   Envelope.is_encrypted (Envelope.subject s) = true)
    by apply response_sender_continuation_encrypted.
  set (pc := SealedResponse.peer_continuation r).
  pose proof (assembled_response_sender (SealedResponse.response r)
                (SealedResponse.sender r) sco pc) as Hs.
  pose proof (assembled_response_sender_continuation (SealedResponse.response r)
                (SealedResponse.sender r) sco pc) as Hsc.
  pose proof (assembled_response_recipient_continuation
                (SealedResponse.response r) (SealedResponse.sender r) sco pc)
    as Hrc.
  pose proof (assembled_response_response (SealedResponse.response r)
                (SealedResponse.sender r) sco pc) as Hrq.
  unfold SealedResponse.to_envelope in Henv.
  rewrite (response_assemble_ok r vu ke Hke) in Henv. fold sco pc in Henv.
  set (body := assembled_response (SealedResponse.response r)
                 (SealedResponse.sender r) sco pc) in *.
  clearbody body.
  rewrite Hkr in Henv. cbn [bind sign_opt ok_or] in Henv.
  injection Henv as <-.
  unfold SealedResponse.try_from_encrypted_envelope.
  rewrite decrypt_sealed. cbn [bind]. rewrite unwrap_signed. cbn [bind].
  unfold Envelope.object_for_predicate. rewrite Hs.
  cbn [bind xid_try_from xid_to_envelope].
  rewrite Hkv. cbn [bind ok_or]. rewrite verify_signed. cbn [bind].
  rewrite (optional_objects _ _ sco) by exact Hsc. cbn [bind].
  clearbody sco.
  destruct sco as [s|].
  - rewrite (Hsco s eq_refl). cbn [negb bind].
    rewrite (optional_objects _ _ pc) by exact Hrc. cbn [bind].
    destruct pc as [ec|]; cbn [bind].
    + destruct (Continuation.try_from_envelope ec expected now (Some kr))
        as [c|]; cbn [bind]; [|reflexivity].
      destruct (Envelope.is_null (Continuation.state c)); cbn [bind];
        rewrite Hrq; reflexivity.
    + rewrite Hrq. reflexivity.
  - cbn [bind]. rewrite (optional_objects _ _ pc) by exact Hrc. cbn [bind].
    destruct pc as [ec|]; cbn [bind].
    + destruct (Continuation.try_from_envelope ec expected now (Some kr))
        as [c|]; cbn [bind]; [|reflexivity].
      destruct (Envelope.is_null (Continuation.state c)); cbn [bind];
        rewrite Hrq; reflexivity.
    + rewrite Hrq. reflexivity.
Qed.

(** [SealedResponse.to_envelope] needs the sender's encryption key only
    when there is a state: a stateless response goes out (here without
    recipient) whatever the sender's keys; with a state and a sender without
    encryption key it fails with the message "Sender must have an encryption
    key"; a recipient without encryption key makes it fail with "Recipient
    must have an encryption key". *)
Theorem response_to_envelope_errors :
  forall (r : SealedResponse.t) (vu : option Date) (signer : option key),
    (SealedResponse.state r = None ->
     SealedResponse.to_envelope r vu signer None =
       Ok (sign_opt (assembled_response (SealedResponse.response r)
                       (SealedResponse.sender r) None
                       (SealedResponse.peer_continuation r)) signer)) /\
    (forall recipient st, SealedResponse.state r = Some st ->
     encryption_key (SealedResponse.sender r) = None ->
     SealedResponse.to_envelope r vu signer recipient =
       Err (Anyhow "Sender must have an encryption key")) /\
    (forall body rd, SealedResponse.assemble r vu = Ok body ->
     encryption_key rd = None ->
     SealedResponse.to_envelope r vu signer (Some rd) =
       Err (Anyhow "Recipient must have an encryption key")).
Proof.
  intros r vu signer. repeat split.
  - intro H. unfold SealedResponse.to_envelope.
    rewrite (response_assemble_stateless r vu H). reflexivity.
  - intros recipient st H Hk.
    unfold SealedResponse.to_envelope, SealedResponse.assemble.
    rewrite H, Hk. reflexivity.
  - intros body rd H Hk. unfold SealedResponse.to_envelope.
    rewrite H. cbn [bind]. rewrite Hk. reflexivity.
Qed.

(** A response signed with the sender's key pair and encrypted to the
    recipient is parsed by the recipient into the response, the sender and
    the sender's continuation (present exactly when the response had a
    state); the state is absent without a returned continuation, and
    otherwise the returned continuation's state, a null state read as no
    state, when that continuation, as read back (its [valid_until] through
    its CBOR encoding), is valid for the time and expected id. *)
Theorem response_roundtrip :
  forall (r : SealedResponse.t) (vu : option Date) (ke kv kr : key)
         (rd : XIDDocument) (env : envelope) (expected : option ARID)
         (now : option Date),
    encryption_key (SealedResponse.sender r) = Some ke ->
    verification_key (SealedResponse.sender r) = Some kv ->
    encryption_key rd = Some kr ->
    SealedResponse.to_envelope r vu (Some kv) (Some rd) = Ok env ->
    (SealedResponse.peer_continuation r = None ->
     SealedResponse.try_from_encrypted_envelope env expected now kr =
       Ok (SealedResponse.mk (SealedResponse.response r)
             (SealedResponse.sender r) None
             (response_sender_continuation r vu ke))) /\
    (forall c, SealedResponse.peer_continuation r =
                 Some (Continuation.to_envelope c (Some kr)) ->
     Continuation.is_valid (Continuation.decoded c) now expected = true ->
     SealedResponse.try_from_encrypted_envelope env expected now kr =
       Ok (SealedResponse.mk (SealedResponse.response r)
             (SealedResponse.sender r)
             (if Envelope.is_null (Continuation.state c) then None
              else Some (Continuation.state c))
             (response_sender_continuation r vu ke))).
Proof.
  intros r vu ke kv kr rd env expected now Hke Hkv Hkr Henv.
  rewrite (response_open r vu ke kv kr rd env expected now Hke Hkv Hkr Henv).
  split.
  - intro Hpc. rewrite Hpc. reflexivity.
  - intros c Hpc Hv. rewrite Hpc, try_from_encrypted. unfold check.
    unfold Continuation.is_valid in Hv. apply andb_prop in Hv as [Hd Hi].
    rewrite Hd, Hi. cbn [negb bind Continuation.decoded Continuation.state].
    destruct (Envelope.is_null (Continuation.state c)); reflexivity.
Qed.

(** Rejections of [SealedResponse.try_from_encrypted_envelope], reported as
    messages: a sender without a verification key gives "Sender must have a
    verification key", a sender continuation in the clear gives "Peer
    continuation must be encrypted"; a signature by another key fails with
    [UnverifiedSignature]. *)
Theorem response_parse_rejections :
  forall (body : envelope) (sd : XIDDocument) (k kr : key)
         (expected : option ARID) (now : option Date),
    Envelope.objects_for_predicate SENDER body = [xid_to_envelope sd] ->
    (verification_key sd = None ->
     SealedResponse.try_from_encrypted_envelope
       (Envelope.encrypt_to_recipient (Envelope.sign body k) kr)
       expected now kr =
       Err (Anyhow "Sender must have a verification key")) /\
    (forall kv, verification_key sd = Some kv -> k <> kv ->
     SealedResponse.try_from_encrypted_envelope
       (Envelope.encrypt_to_recipient (Envelope.sign body k) kr)
       expected now kr =
       Err (EnvelopeError UnverifiedSignature)) /\
    (forall pc, verification_key sd = Some k ->
     Envelope.objects_for_predicate SENDER_CONTINUATION body = [pc] ->
     Envelope.is_encrypted (Envelope.subject pc) = false ->
     SealedResponse.try_from_encrypted_envelope
       (Envelope.encrypt_to_recipient (Envelope.sign body k) kr)
       expected now kr =
       Err (Anyhow "Peer continuation must be encrypted")).
Proof.
  intros body sd k kr expected now Hs.
  unfold SealedResponse.try_from_encrypted_envelope.
  rewrite decrypt_sealed. cbn [bind]. rewrite unwrap_signed. cbn [bind].
  unfold Envelope.object_for_predicate. rewrite Hs.
  cbn [bind xid_try_from xid_to_envelope].
  repeat split.
  - intro Hv. rewrite Hv. reflexivity.
  - intros kv Hv Hk. rewrite Hv. cbn [bind ok_or].
    rewrite (verify_other_key body k kv Hk). reflexivity.
  - intros pc Hv Hsc Hpc. rewrite Hv. cbn [bind ok_or].
    rewrite verify_signed. cbn [bind].
    rewrite (optional_objects _ _ (Some pc)) by exact Hsc. cbn [bind].
    rewrite Hpc. reflexivity.
Qed.

End ResponseExtra.

Module EventExtra.
Import AssemblyFacts RequestFacts ContinuationExtra SealedExtra.














(** The continuation an event carries for its sender is bound to no
    request id: it holds the state (the null envelope when there is none)
    and the [valid_until], and the sender reads it back, with its
    encryption key, under any expected id, as [decoded c] (its
    [valid_until] through its CBOR encoding), failing only once that date
    has passed. *)
Theorem event_sender_continuation_unbound :
  forall (ev : SealedEvent.t) (vu : option Date) (ke : key) (sc : envelope),
    SealedEvent.sender_continuation ev vu ke = Some sc ->
    let c := Continuation.mk
               (match SealedEvent.state ev with
                | Some s => s | None => Envelope.null end) None vu in
    sc = Continuation.to_envelope c (Some ke) /\
    forall (id : option ARID) (now : option Date),
      Continuation.try_from_envelope sc id now (Some ke) =
        if Continuation.is_valid_date (Continuation.decoded c) now
        then Ok (Continuation.decoded c)
        else Err (Anyhow "Continuation expired").
Proof.
  intros ev vu ke sc H c.
  assert (Hsc : sc = Continuation.to_envelope c (Some ke)).
  { unfold SealedEvent.sender_continuation in H. subst c.
    destruct (SealedEvent.state ev), vu; simpl in H; try discriminate;
      injection H as <-; reflexivity. }
  split; [exact Hsc|].
  intros id now. rewrite Hsc, try_from_encrypted. unfold check.
  destruct id; destruct (Continuation.is_valid_date (Continuation.decoded c) now);
    reflexivity.
Qed.

End EventExtra.

Module ProtocolExtra.
Import RequestFacts ContinuationExtra SealedExtra ResponseExtra.


End ProtocolExtra.

Module ExtraRuns.
Import RequestFacts RequestClaims Runs ContinuationExtra SealedExtra
  ResponseExtra EventExtra ProtocolExtra.

(** A continuation bound to request 7, valid until 100. *)
Definition sample_continuation : Continuation.t :=
  Continuation.mk (ELeaf (LText "state")) (Some 7%Z) (Some 100%Z).

(** A sender identity without a verification key. *)
Definition mute : XIDDocument := mkXID 4%Z (Some 4%nat) None.

Lemma continuation_key_mismatch_witness :
  Continuation.try_from_envelope
    (Continuation.to_envelope sample_continuation (Some 1%nat)) None None
    (Some 2%nat) = Err (EnvelopeError UnknownRecipient) /\
  Continuation.try_from_envelope
    (Continuation.to_envelope sample_continuation (Some 1%nat)) None None
    None = Err (EnvelopeError NotWrapped) /\
  Continuation.try_from_envelope
    (Continuation.to_envelope sample_continuation None) None None
    (Some 1%nat) = Err (EnvelopeError UnknownRecipient).
Proof.
  apply (continuation_key_mismatch sample_continuation 1%nat 2%nat None None).
  discriminate.
Defined.

Lemma expiry_monotone_witness :
  Continuation.try_from_envelope
    (Continuation.to_envelope sample_continuation (Some 1%nat)) (Some 7%Z)
    (Some 10%Z) (Some 1%nat) = Ok sample_continuation /\
  Continuation.try_from_envelope
    (Continuation.to_envelope sample_continuation (Some 1%nat)) (Some 7%Z)
    None (Some 1%nat) = Ok sample_continuation /\
  Continuation.try_from_envelope
    (Continuation.to_envelope sample_continuation (Some 1%nat)) (Some 7%Z)
    (Some 100%Z) (Some 1%nat) = Err (Anyhow "Continuation expired").
Proof.
  destruct (expiry_monotone
              (Continuation.to_envelope sample_continuation (Some 1%nat))
              (Some 7%Z) (Some 1%nat) sample_continuation 50%Z)
    as [H1 [H2 H3]]; [reflexivity|].
  split; [apply H1; lia|split; [exact H2|]].
  apply (H3 100%Z 100%Z); [reflexivity|lia].
Defined.

Lemma id_binding_witness :
  (Continuation.valid_id sample_continuation = None \/
   Continuation.valid_id sample_continuation = Some 7%Z) /\
  Continuation.try_from_envelope
    (Continuation.to_envelope sample_continuation (Some 1%nat)) None
    (Some 50%Z) (Some 1%nat) = Ok sample_continuation /\
  Continuation.try_from_envelope
    (Continuation.to_envelope sample_continuation (Some 1%nat)) (Some 8%Z)
    (Some 50%Z) (Some 1%nat) = Err (Anyhow "Continuation ID invalid").
Proof.
  destruct (id_binding
              (Continuation.to_envelope sample_continuation (Some 1%nat))
              (Some 50%Z) (Some 1%nat) sample_continuation) as [H1 H2].
  destruct (H1 7%Z) as [Hv Hn]; [reflexivity|].
  split; [exact Hv|split; [exact Hn|]].
  apply (H2 7%Z 8%Z); [exact Hn|reflexivity|lia].
Defined.

Lemma request_to_envelope_errors_witness :
  SealedRequest.to_envelope
    (SealedRequest.new (ELeaf (LText "test")) 7%Z keyless)
    None (Some 3%nat) (Some server) = Err SenderMissingEncryptionKey /\
  SealedRequest.to_envelope
    (SealedRequest.new (ELeaf (LText "test")) 7%Z keyless)
    None (Some 3%nat) (Some keyless) = Err SenderMissingEncryptionKey /\
  SealedRequest.to_envelope client_request None (Some 1%nat)
    (Some keyless) = Err RecipientMissingEncryptionKey /\
  SealedRequest.to_envelope client_request (Some 60%Z) None None =
    Ok (assembled_request (SealedRequest.request client_request) client
          (Continuation.to_envelope (request_continuation client_request
                                       (Some 60%Z)) (Some 1%nat)) None).
Proof.
  split; [apply (request_to_envelope_errors
                   (SealedRequest.new (ELeaf (LText "test")) 7%Z keyless)
                   None (Some 3%nat)); reflexivity|].
  split; [apply (request_to_envelope_errors
                   (SealedRequest.new (ELeaf (LText "test")) 7%Z keyless)
                   None (Some 3%nat)); reflexivity|].
  destruct (request_to_envelope_errors client_request None (Some 1%nat))
    as [_ [H2 _]].
  split; [apply (H2 1%nat); reflexivity|].
  destruct (request_to_envelope_errors client_request (Some 60%Z) None)
    as [_ [_ H3]].
  apply (H3 1%nat). reflexivity.
Defined.

(** The server's own continuation, returned by the client. *)
Definition server_continuation : Continuation.t :=
  Continuation.mk (ELeaf (LText "server state")) (Some 7%Z) (Some 100%Z).

Lemma request_roundtrip_with_continuation_witness :
  exists env,
    SealedRequest.to_envelope
      (SealedRequest.with_peer_continuation client_request
         (Continuation.to_envelope server_continuation (Some 2%nat)))
      None (Some 1%nat) (Some server) = Ok env /\
    SealedRequest.try_from_envelope env (Some 7%Z) (Some 50%Z) 2%nat =
      Ok (SealedRequest.mk (SealedRequest.request client_request) client
            (Some (ELeaf (LText "server state")))
            (Some (Continuation.to_envelope
                     (request_continuation client_request None)
                     (Some 1%nat)))).
Proof.
  eexists. split; [reflexivity|].
  apply (request_roundtrip_with_continuation
           (SealedRequest.with_peer_continuation client_request
              (Continuation.to_envelope server_continuation (Some 2%nat)))
           None 1%nat 1%nat 2%nat server server_continuation);
    reflexivity.
Defined.

(** A request payload naming [sd] as sender. *)
Definition request_payload (sd : XIDDocument) : envelope :=
  Envelope.add_assertion SENDER (xid_to_envelope sd)
    (request_into_envelope (SealedRequest.request client_request)).

Lemma request_parse_rejections_witness :
  SealedRequest.try_from_envelope
    (Envelope.encrypt_to_recipient (Envelope.sign (request_payload client) 1%nat)
       2%nat) None None 1%nat = Err (EnvelopeError UnknownRecipient) /\
  SealedRequest.try_from_envelope
    (Envelope.encrypt_to_recipient (Envelope.sign (request_payload mute) 4%nat)
       2%nat) None None 2%nat = Err SenderMissingVerificationKey /\
  SealedRequest.try_from_envelope
    (Envelope.encrypt_to_recipient (Envelope.sign (request_payload client) 3%nat)
       2%nat) None None 2%nat = Err (EnvelopeError UnverifiedSignature) /\
  SealedRequest.try_from_envelope
    (Envelope.encrypt_to_recipient
       (Envelope.sign
          (Envelope.add_assertion SENDER_CONTINUATION
             (Continuation.to_envelope sample_continuation None)
             (request_payload client)) 1%nat) 2%nat) None None 2%nat =
    Err PeerContinuationNotEncrypted.
Proof.
  destruct request_parse_rejections as [H0 H].
  split; [apply H0; discriminate|].
  split; [apply (H (request_payload mute) mute 4%nat 2%nat None None);
          reflexivity|].
  split.
  - apply (H (request_payload client) client 3%nat 2%nat None None
             ltac:(reflexivity)) with (kv := 1%nat);
      [reflexivity|discriminate].
  - apply (H (Envelope.add_assertion SENDER_CONTINUATION
                (Continuation.to_envelope sample_continuation None)
                (request_payload client))
             client 1%nat 2%nat None None ltac:(reflexivity))
      with (pc := Continuation.to_envelope sample_continuation None);
      reflexivity.
Defined.

Lemma response_to_envelope_errors_witness :
  SealedResponse.to_envelope (SealedResponse.new_success 7%Z keyless) None
    (Some 3%nat) None =
    Ok (sign_opt (assembled_response (response_new_success 7%Z) keyless None
                    None) (Some 3%nat)) /\
  SealedResponse.to_envelope
    (SealedResponse.mk (response_new_success 7%Z) keyless
       (Some (ELeaf (LText "s"))) None) None (Some 3%nat) (Some server) =
    Err (Anyhow "Sender must have an encryption key") /\
  SealedResponse.to_envelope (SealedResponse.new_failure 7%Z server) None
    (Some 2%nat) (Some keyless) =
    Err (Anyhow "Recipient must have an encryption key").
Proof.
  split; [apply (response_to_envelope_errors
                   (SealedResponse.new_success 7%Z keyless) None (Some 3%nat));
          reflexivity|].
  split.
  - destruct (response_to_envelope_errors
                (SealedResponse.mk (response_new_success 7%Z) keyless
                   (Some (ELeaf (LText "s"))) None) None (Some 3%nat))
      as [_ [H2 _]].
    apply (H2 (Some server) (ELeaf (LText "s"))); reflexivity.
  - destruct (response_to_envelope_errors
                (SealedResponse.new_failure 7%Z server) None (Some 2%nat))
      as [_ [_ H3]].
    eapply H3; reflexivity.
Defined.

(** The client's continuation for request 7, returned by the server. *)
Definition client_continuation : Continuation.t :=
  Continuation.mk (ELeaf (LText "client state")) (Some 7%Z) (Some 100%Z).

Lemma response_roundtrip_witness :
  (exists env,
     SealedResponse.to_envelope
       (SealedResponse.with_peer_continuation
          (SealedResponse.new_success 7%Z server)
          (Some (Continuation.to_envelope client_continuation (Some 1%nat))))
       None (Some 2%nat) (Some client) = Ok env /\
     SealedResponse.try_from_encrypted_envelope env (Some 7%Z) (Some 50%Z)
       1%nat =
       Ok (SealedResponse.mk (response_new_success 7%Z) server
             (Some (ELeaf (LText "client state"))) None)) /\
  (exists env,
     SealedResponse.to_envelope
       (SealedResponse.mk (response_new_success 7%Z) server
          (Some (ELeaf (LText "s"))) None)
       (Some 60%Z) (Some 2%nat) (Some client) = Ok env /\
     SealedResponse.try_from_encrypted_envelope env None None 1%nat =
       Ok (SealedResponse.mk (response_new_success 7%Z) server None
             (Some (Continuation.to_envelope
                      (Continuation.mk (ELeaf (LText "s")) None (Some 60%Z))
                      (Some 2%nat))))).
Proof.
  split.
  - eexists. split; [reflexivity|].
    refine (proj2 (response_roundtrip
                     (SealedResponse.with_peer_continuation
                        (SealedResponse.new_success 7%Z server)
                        (Some (Continuation.to_envelope client_continuation
                                 (Some 1%nat))))
                     None 2%nat 2%nat 1%nat client _ (Some 7%Z) (Some 50%Z)
                     eq_refl eq_refl eq_refl eq_refl) client_continuation
                  eq_refl eq_refl).
  - eexists. split; [reflexivity|].
    refine (proj1 (response_roundtrip
                     (SealedResponse.mk (response_new_success 7%Z) server
                        (Some (ELeaf (LText "s"))) None)
                     (Some 60%Z) 2%nat 2%nat 1%nat client _ None None
                     eq_refl eq_refl eq_refl eq_refl) eq_refl).
Defined.

Lemma response_parse_rejections_witness :
  SealedResponse.try_from_encrypted_envelope
    (Envelope.encrypt_to_recipient (Envelope.sign (request_payload mute) 4%nat)
       2%nat) None None 2%nat =
    Err (Anyhow "Sender must have a verification key") /\
  SealedResponse.try_from_encrypted_envelope
    (Envelope.encrypt_to_recipient (Envelope.sign (request_payload client) 3%nat)
       2%nat) None None 2%nat = Err (EnvelopeError UnverifiedSignature) /\
  SealedResponse.try_from_encrypted_envelope
    (Envelope.encrypt_to_recipient
       (Envelope.sign
          (Envelope.add_assertion SENDER_CONTINUATION
             (Continuation.to_envelope sample_continuation None)
             (request_payload client)) 1%nat) 2%nat) None None 2%nat =
    Err (Anyhow "Peer continuation must be encrypted").
Proof.
  split; [apply (response_parse_rejections (request_payload mute) mute 4%nat
                   2%nat None None); reflexivity|].
  split.
  - apply (response_parse_rejections (request_payload client) client 3%nat
             2%nat None None ltac:(reflexivity)) with (kv := 1%nat);
      [reflexivity|discriminate].
  - apply (response_parse_rejections (Envelope.add_assertion SENDER_CONTINUATION
                (Continuation.to_envelope sample_continuation None)
                (request_payload client))
             client 1%nat 2%nat None None ltac:(reflexivity))
      with (pc := Continuation.to_envelope sample_continuation None);
      reflexivity.
Defined.




Lemma event_sender_continuation_unbound_witness :
  Continuation.try_from_envelope
    (Continuation.to_envelope
       (Continuation.mk (ELeaf (LText "s")) None (Some 100%Z)) (Some 1%nat))
    (Some 9%Z) (Some 50%Z) (Some 1%nat) =
    Ok (Continuation.mk (ELeaf (LText "s")) None (Some 100%Z)) /\
  Continuation.try_from_envelope
    (Continuation.to_envelope
       (Continuation.mk (ELeaf (LText "s")) None (Some 100%Z)) (Some 1%nat))
    (Some 9%Z) (Some 150%Z) (Some 1%nat) =
    Err (Anyhow "Continuation expired").
Proof.
  destruct (event_sender_continuation_unbound
              (SealedEvent.with_state (broadcast_event client)
                 (ELeaf (LText "s"))) (Some 100%Z) 1%nat _ eq_refl)
    as [_ H].
  split; [exact (H (Some 9%Z) (Some 50%Z))|exact (H (Some 9%Z) (Some 150%Z))].
Defined.



End ExtraRuns.
